(** * The transfer-learning notebook, embedded and checked against its description

    The notebook [transfer_learning.ipynb] is glue code around Keras, NumPy,
    scikit-learn and the Python standard library.  Its own code (the cells'
    statements and the functions [load_dataset], [path_to_tensor],
    [paths_to_tensor], [create_scratch_model], [create_finetune_model],
    [create_frozen_model] and [train]) is translated statement by statement.
    The library calls it makes are given by small executable models of their
    documented behaviour (module [Py], the sections on scikit-learn and
    Keras), and what those libraries leave open (the shuffle of the loader,
    what the operating system and the image library do with a path, the
    depth of the pretrained network, the outcome of a training run, the
    printing of floats and of object addresses) is a variable of the
    development. *)

From Stdlib Require Import PrimFloat Ascii HexString.
From stdpp Require Import base list strings sorting pretty gmap.

Local Open Scope nat_scope.

(** Decimal float literals denote the nearest binary64 value, as in Python. *)
Set Warnings "-inexact-float".

(** ** Python: exceptions, results, and the string functions the cells use *)

Module Py.

(** The built-in exceptions the library calls of the notebook can raise. *)
Inductive exn :=
  IndexError | TypeError | ValueError | RuntimeError | OSError | AttributeError.

(** A computation that returns a value or raises. *)
Inductive res (A : Type) : Type :=
  | Ok (a : A)
  | Raise (e : exn).
Global Arguments Ok {A} a.
Global Arguments Raise {A} e.

Global Instance res_ret : MRet res := λ A a, Ok a.
Global Instance res_bind : MBind res := λ A B f m,
  match m with
  | Ok a => f a
  | Raise e => Raise e
  end.

Global Instance res_fmap : FMap res := λ A B f m,
  match m with
  | Ok a => Ok (f a)
  | Raise e => Raise e
  end.

Definition returns {A} (m : res A) : Prop := ∃ a, m = Ok a.

(** The value of a function call: [None] or an object reference. *)
Inductive value := PyNone | PyObject (ref : nat).

(** [c.lower()] on one character of the ASCII range. *)
Definition lower_char (c : ascii) : ascii :=
  let n := nat_of_ascii c in
  if bool_decide (65 ≤ n ∧ n ≤ 90) then ascii_of_nat (n + 32) else c.

(** [s.lower()].  Outside ASCII a string is its UTF-8 bytes, which are left
    as they are; no non-ASCII character lowers to one of the letters of
    ['sgd'], ['nesterov'] or ['adam']. *)
Fixpoint lower (s : string) : string :=
  match s with
  | EmptyString => EmptyString
  | String c s' => String (lower_char c) (lower s')
  end.

(** [s[start:-back]] for [0 <= start] and [0 < back], on a string of the
    ASCII range.  A string is its UTF-8 bytes here, and Python counts code
    points: on other strings the two differ. *)
Definition slice (start back : nat) (s : string) : string :=
  String.substring start (String.length s - back - start) s.

(** [sorted(l)] on strings: ascending by code point. *)
Definition sorted (l : list string) : list string := merge_sort String.le l.

(** [os.path.join(a, b)] for a relative name [b]. *)
Definition join (a b : string) : string :=
  match String.rev a with
  | EmptyString => b
  | String "/" _ => a +:+ b
  | String _ _ => a +:+ "/" +:+ b
  end.

(** [l[:n]]. *)
Definition upto {A} (n : nat) (l : list A) : list A := take n l.

End Py.
Import Py.

(** ** The file system the loader and [glob] read *)

(** One entry of a directory listing: its name, whether it is a directory,
    and for a directory the names [os.listdir] gives for it. *)
Record Entry := mkEntry { e_name : string; e_is_dir : bool; e_files : list string }.

(** Directory path to listing, in the order the operating system gives it. *)
Abbreviation FileSystem := (gmap string (list Entry)).

Definition entry_le (a b : Entry) : Prop := String.le (e_name a) (e_name b).
Global Instance entry_le_dec : RelDecision entry_le.
Proof. intros a b. unfold entry_le. apply _. Defined.

(** [glob(path + "/*/")]: the directories of [path] whose name does not start
    with a dot, each as [path/name/]; no error when [path] is missing. *)
Definition hidden (name : string) : bool :=
  match name with
  | String "." _ => true
  | _ => false
  end.

Definition glob_dirs (fs : FileSystem) (path : string) : list string :=
  (λ e, path +:+ "/" +:+ e_name e +:+ "/") <$>
    filter (λ e, e_is_dir e = true ∧ hidden (e_name e) = false) (default [] (fs !! path)).

(** What the operating system and the image library do with a path: whether
    it can be listed as a directory, whether it can be opened and read as a
    file (a directory cannot), and what [image.load_img] raises on it when
    it does not give an image: [OSError] or one of its subclasses on a path
    that is no file it can open or no image it can identify. *)
Record Access := mkAccess {
  listable : string → bool;
  readable : string → bool;
  load_img_error : string → option exn }.

(** ** scikit-learn: [load_files] *)

Record Bunch := mkBunch {
  b_filenames : list string;
  b_target : list nat;
  b_target_names : list string }.

Section Loader.

(** The permutation [RandomState(0).shuffle] applies to [n] indices. *)
Variable shuffle_indices : nat → list nat.

Variable access : Access.

(** [a[indices]] for indices within range. *)
Definition fancy_index {A} (a : list A) (indices : list nat) : list A :=
  omap (λ i, a !! i) indices.

(** [sklearn.datasets.load_files(container_path)] with its defaults,
    [load_content=True] among them: the sorted sub-directories are the
    categories, numbered from 0, and each of them is listed; every entry of
    a category is a document with that number as its target; file names and
    targets are shuffled by one permutation; then every document is opened
    and read.  A path that cannot be listed and a document that cannot be
    read (a directory among the entries of a category, for one) raise
    [OSError] or one of its subclasses.  The contents that were read are
    never used by the notebook and are left out. *)
Definition load_files (fs : FileSystem) (container_path : string) : res Bunch :=
  match fs !! container_path with
  | None => Raise OSError
  | Some listing =>
      let folders :=
        merge_sort entry_le (filter (λ e, e_is_dir e = true) listing) in
      let documents (folder : Entry) :=
        join (join container_path (e_name folder)) <$> sorted (e_files folder) in
      if decide (Forall (λ folder,
                   listable access (join container_path (e_name folder)) = true) folders)
      then
        let target := mjoin (imap (λ label folder,
                         replicate (length (documents folder)) label) folders) in
        let filenames := mjoin (documents <$> folders) in
        let indices := shuffle_indices (length filenames) in
        let filenames := fancy_index filenames indices in
        let target := fancy_index target indices in
        if decide (Forall (λ filename, readable access filename = true) filenames)
        then Ok {| b_filenames := filenames;
                   b_target := target;
                   b_target_names := e_name <$> folders |}
        else Raise OSError
      else Raise OSError
  end.

(** ** Keras: [np_utils.to_categorical] *)

(** One row of zeros with a one at [label]. *)
Definition one_hot (num_classes label : nat) : list nat :=
  <[label := 1]> (replicate num_classes 0).

(** [to_categorical(y, num_classes)]: a matrix of zeros, then
    [categorical[np.arange(n), y] = 1], which raises [IndexError] when a
    label is not a column.  A falsy [num_classes] is replaced by
    [max(y) + 1], and [np.max] of nothing raises [ValueError]. *)
Definition to_categorical (y : list nat) (num_classes : nat) : res (list (list nat)) :=
  let checked (k : nat) :=
    if decide (Forall (λ label, label < k) y)
    then Ok (one_hot k <$> y)
    else Raise IndexError in
  match num_classes, y with
  | 0, [] => Raise ValueError
  | 0, _ => checked (S (max_list y))
  | _, _ => checked num_classes
  end.

(** ** Cell 1: [load_dataset] *)

Definition load_dataset (fs : FileSystem) (path : string)
  : res (list string * list (list nat)) :=
  data ← load_files fs path;
  let dog_files := b_filenames data in
  dog_targets ← to_categorical (b_target data) 133;
  mret (dog_files, dog_targets).

End Loader.

(** ** NumPy arrays of images *)

(** A stack of image tensors: one row per image file, every row of the same
    shape; [arr_scaled] records [.astype('float32')/255]. *)
Record Array := mkArray {
  arr_rows : list string;
  arr_row_shape : list nat;
  arr_scaled : bool }.

(** [a.shape] *)
Definition shape (a : Array) : list nat := length (arr_rows a) :: arr_row_shape a.

(** [a[:n]] *)
Definition array_upto (n : nat) (a : Array) : Array :=
  {| arr_rows := upto n (arr_rows a);
     arr_row_shape := arr_row_shape a;
     arr_scaled := arr_scaled a |}.

(** [np.vstack]: rows of all the arrays, and [ValueError] on an empty list. *)
Definition vstack (l : list Array) : res Array :=
  match l with
  | [] => Raise ValueError
  | a :: _ => Ok {| arr_rows := mjoin (arr_rows <$> l);
                    arr_row_shape := arr_row_shape a;
                    arr_scaled := arr_scaled a |}
  end.

(** [a.astype('float32')/255] *)
Definition astype_float32_div_255 (a : Array) : Array :=
  {| arr_rows := arr_rows a; arr_row_shape := arr_row_shape a; arr_scaled := true |}.

(** ** Cell 2: [path_to_tensor] and [paths_to_tensor] *)

Section Images.

Variable access : Access.

(** The image is loaded at 224 x 224 in RGB, turned into a 3D array and given
    a leading axis of length one.  The array stands for the pixels of the
    file at [img_path]; where [image.load_img] raises, [path_to_tensor]
    raises the same. *)
Definition path_to_tensor (img_path : string) : res Array :=
  match load_img_error access img_path with
  | Some e => Raise e
  | None => Ok {| arr_rows := [img_path]; arr_row_shape := [224; 224; 3];
                  arr_scaled := false |}
  end.

(** The list comprehension calls [path_to_tensor] path by path, in the order
    of the paths, and stops at the first call that raises. *)
Definition paths_to_tensor (img_paths : list string) : res Array :=
  list_of_tensors ← mapM path_to_tensor img_paths;
  vstack list_of_tensors.

End Images.

(** ** Keras objects *)

Inductive Activation := relu | softmax.

(** What a layer computes: the [i]-th layer of the Inception V3 graph, or one
    of the two layer classes the notebook instantiates itself. *)
Inductive LayerConfig :=
  | InceptionLayer (i : nat)
  | GlobalAveragePooling2D
  | Dense (units : nat) (activation : Activation).

(** Where a layer's initial weights come from: a random initialiser
    ([weights=None], and every layer the notebook adds) or ImageNet. *)
Inductive Weights := random_weights | imagenet_weights.

(** A layer object: what it computes, where its initial weights came from,
    and its [trainable] flag.  The values of the weights, which a training
    run changes in place, are not part of the state. *)
Record Layer := mkLayer {
  l_config : LayerConfig;
  l_weights : Weights;
  trainable : bool }.

Inductive Optimizer :=
  | SGD_optimizer (lr momentum : float) (nesterov : bool)
  | Adam_optimizer (lr beta_1 beta_2 epsilon : float).

(** A model object: references to its layers from input to output, the shape
    of one input and of one output, and the optimizer [compile] attached. *)
Record ModelObj := mkModel {
  layers : list nat;
  input_shape : list nat;
  output_shape : list nat;
  optimizer : option Optimizer }.

(** A symbolic tensor: the layers it was computed by, and its shape. *)
Record KTensor := mkKTensor { kt_layers : list nat; kt_shape : list nat }.

(** The [.history] dictionary of a training run, by metric name. *)
Abbreviation HistoryDict := (list (string * list float)).

(** A [keras.callbacks.History] object: its identity and its dictionary. *)
Record History := mkHistory { h_id : nat; h_history : HistoryDict }.

(** What [train] returns: [(solver, lr, result)]. *)
Abbreviation Result := (string * float * History)%type.

(** One call of [model.fit], as the framework receives it. *)
Record FitCall := mkFitCall {
  fc_model : ModelObj;
  fc_layers : list Layer;
  fc_x : Array;
  fc_y : list (list nat);
  fc_validation_data : Array * list (list nat);
  fc_epochs : nat;
  fc_batch_size : nat;
  fc_verbose : nat }.

(** ** The interpreter state *)

(** What a run leaves behind to be observed: a line on standard output, the
    entry into a function of the notebook, and the two calls that change or
    train a model. *)
Inductive Event :=
  | Stdout (text : string)
  | Called (function : string)
  | Compiled (model : nat) (opt : Optimizer)
  | Fitted (model : nat) (call : FitCall).

(** Layer objects and model objects by reference, the number of [History]
    objects made so far, the global list [results], and what happened. *)
Record World := mkWorld {
  w_layers : list Layer;
  w_models : list ModelObj;
  w_histories : nat;
  w_results : list Result;
  w_log : list Event }.

Definition empty_world : World :=
  {| w_layers := []; w_models := []; w_histories := 0; w_results := []; w_log := [] |}.

(** A statement: it runs in a state, returns or raises, and leaves a state. *)
Definition M (A : Type) : Type := World → res A * World.

Global Instance M_ret : MRet M := λ A a w, (Ok a, w).
Global Instance M_bind : MBind M := λ A B f m w,
  match m w with
  | (Ok a, w') => f a w'
  | (Raise e, w') => (Raise e, w')
  end.

Definition lift {A} (r : res A) : M A := λ w, (r, w).

(** Updates of one component of the state. *)
Definition upd_layers (f : list Layer → list Layer) (w : World) : World :=
  {| w_layers := f (w_layers w); w_models := w_models w;
     w_histories := w_histories w; w_results := w_results w; w_log := w_log w |}.
Definition upd_models (f : list ModelObj → list ModelObj) (w : World) : World :=
  {| w_layers := w_layers w; w_models := f (w_models w);
     w_histories := w_histories w; w_results := w_results w; w_log := w_log w |}.
Definition upd_histories (f : nat → nat) (w : World) : World :=
  {| w_layers := w_layers w; w_models := w_models w;
     w_histories := f (w_histories w); w_results := w_results w; w_log := w_log w |}.
Definition upd_results (f : list Result → list Result) (w : World) : World :=
  {| w_layers := w_layers w; w_models := w_models w;
     w_histories := w_histories w; w_results := f (w_results w); w_log := w_log w |}.
Definition upd_log (f : list Event → list Event) (w : World) : World :=
  {| w_layers := w_layers w; w_models := w_models w;
     w_histories := w_histories w; w_results := w_results w; w_log := f (w_log w) |}.

Definition emit (ev : Event) : M unit := λ w, (Ok (), upd_log (.++ [ev]) w).

(** [print(text)] *)
Definition print (text : string) : M unit := emit (Stdout text).

(** [for x in l: body] *)
Fixpoint for_each {A} (l : list A) (body : A → M unit) : M unit :=
  match l with
  | [] => mret ()
  | x :: l' => body x ;; for_each l' body
  end.

(** A new layer object, and a new model object: the reference is the next
    free one. *)
Definition new_layer (l : Layer) : M nat := λ w,
  (Ok (length (w_layers w)), upd_layers (.++ [l]) w).

Definition new_model (m : ModelObj) : M nat := λ w,
  (Ok (length (w_models w)), upd_models (.++ [m]) w).

Fixpoint new_layers (ls : list Layer) : M (list nat) :=
  match ls with
  | [] => mret []
  | l :: ls' =>
      r ← new_layer l;
      rs ← new_layers ls';
      mret (r :: rs)
  end.

(** The object behind a model reference.  A reference always names an object
    in Python; the other case is closed with [RuntimeError]. *)
Definition get_model (model : nat) : M ModelObj := λ w,
  (from_option Ok (Raise RuntimeError) (w_models w !! model), w).

(** [layer.trainable = b] *)
Definition with_trainable (b : bool) (l : Layer) : Layer :=
  {| l_config := l_config l; l_weights := l_weights l; trainable := b |}.

Definition set_trainable (b : bool) (layer : nat) : M unit := λ w,
  (Ok (), upd_layers (alter (with_trainable b) layer) w).

(** [results.append(r)] *)
Definition results_append (r : Result) : M unit := λ w,
  (Ok (), upd_results (.++ [r]) w).

(** The layer objects a model refers to, as they are in a state. *)
Definition model_layers (w : World) (m : ModelObj) : list Layer :=
  omap (λ r, w_layers w !! r) (layers m).

(** ** Keras: the calls the notebook makes *)

Section Keras.

(** The number of layers of [InceptionV3(include_top=False)]. *)
Variable inception_depth : nat.

(** What a training run does with a call of [fit]: it raises, or it gives
    the metrics of each epoch. *)
Variable training : FitCall → res HistoryDict.

(** Side of a feature map after a [k] x [k] window with stride [s] and no
    padding. *)
Definition valid_window (k s n : nat) : nat := (n - k) / s + 1.

(** Side of the last feature map of Inception V3 for an input of side [n]:
    the strided convolution and two more of the stem, its two poolings with
    the convolution between them, and the two grid reductions. *)
Definition inception_side (n : nat) : nat :=
  let n := valid_window 3 2 n in
  let n := valid_window 3 1 n in
  let n := valid_window 3 2 n in
  let n := valid_window 3 1 n in
  let n := valid_window 3 2 n in
  let n := valid_window 3 2 n in
  valid_window 3 2 n.

(** [InceptionV3(include_top=False, weights=..., input_shape=...)]: every
    layer of the graph is a new object, trainable, with the weights asked
    for; an unknown [weights] raises [ValueError].  The input shape is taken
    to be one the network accepts, as the 224 x 224 x 3 of cell 2 is. *)
Definition InceptionV3 (weights : option string) (shape_in : list nat) : M nat :=
  w ← lift (match weights with
            | None => Ok random_weights
            | Some name => if decide (name = "imagenet"%string)
                           then Ok imagenet_weights else Raise ValueError
            end);
  refs ← new_layers ((λ i, {| l_config := InceptionLayer i; l_weights := w;
                              trainable := true |}) <$> seq 0 inception_depth);
  new_model {| layers := refs;
               input_shape := shape_in;
               output_shape := (inception_side <$> take 2 shape_in) ++ [2048];
               optimizer := None |}.

(** [model.input] and [model.output] *)
Definition model_input (model : nat) : M KTensor :=
  m ← get_model model;
  mret {| kt_layers := take 1 (layers m); kt_shape := input_shape m |}.

Definition model_output (model : nat) : M KTensor :=
  m ← get_model model;
  mret {| kt_layers := layers m; kt_shape := output_shape m |}.

(** The shape a layer gives for an input of shape [s] (without the batch
    axis). *)
Definition layer_output_shape (c : LayerConfig) (s : list nat) : list nat :=
  match c with
  | InceptionLayer _ => s
  | GlobalAveragePooling2D => drop (length s - 1) s
  | Dense units _ => take (length s - 1) s ++ [units]
  end.

(** [Layer(...)(x)]: a new trainable layer object with fresh weights,
    applied to the tensor [x]. *)
Definition apply_layer (c : LayerConfig) (x : KTensor) : M KTensor :=
  r ← new_layer {| l_config := c; l_weights := random_weights; trainable := true |};
  mret {| kt_layers := kt_layers x ++ [r];
          kt_shape := layer_output_shape c (kt_shape x) |}.

(** [Model(inputs=..., outputs=...)]: the layers between the two tensors. *)
Definition Model (inputs outputs : KTensor) : M nat :=
  new_model {| layers := kt_layers outputs;
               input_shape := kt_shape inputs;
               output_shape := kt_shape outputs;
               optimizer := None |}.

(** [SGD(lr=..., momentum=..., nesterov=...)] *)
Definition SGD (lr momentum : float) (nesterov : bool) : res Optimizer :=
  Ok (SGD_optimizer lr momentum nesterov).

(** [Adam(lr=..., beta_1=..., beta_2=..., epsilon=..., **kwargs)]: the
    optimizer base class raises [TypeError] on a keyword other than
    [clipnorm] and [clipvalue]. *)
Definition Adam (lr beta_1 beta_2 epsilon : float) (kwargs : list (string * float))
  : res Optimizer :=
  if decide (Forall (λ k, k ∈ ["clipnorm"; "clipvalue"]%string) kwargs.*1)
  then Ok (Adam_optimizer lr beta_1 beta_2 epsilon)
  else Raise TypeError.

(** [model.compile(optimizer=..., loss='categorical_crossentropy',
    metrics=['accuracy'])]: the optimizer is attached to the model. *)
Definition with_optimizer (opt : Optimizer) (m : ModelObj) : ModelObj :=
  {| layers := layers m; input_shape := input_shape m;
     output_shape := output_shape m; optimizer := Some opt |}.

Definition attach_optimizer (ref : nat) (opt : Optimizer) : M unit := λ w,
  (Ok (), upd_models (alter (with_optimizer opt) ref) w).

(** [model.compile], [model.fit] before the call: the method is looked up on
    the object, and on [None] the lookup raises [AttributeError], before any
    argument of the call is evaluated. *)
Definition method (model : value) : M unit :=
  match model with
  | PyNone => lift (Raise AttributeError)
  | PyObject _ => mret ()
  end.

Definition compile (model : value) (opt : Optimizer) : M unit :=
  match model with
  | PyNone => lift (Raise AttributeError)
  | PyObject ref => emit (Compiled ref opt);; attach_optimizer ref opt
  end.

(** [model.fit(x, y, validation_data=..., epochs=..., batch_size=...,
    verbose=...)]: the framework trains and gives a new [History].  What
    training does to the values of the weights is not recorded, see
    [Layer]. *)
Definition run_training (ref : nat) (call : FitCall) : M History := λ w,
  let w' := upd_log (.++ [Fitted ref call]) w in
  match training call with
  | Raise e => (Raise e, w')
  | Ok h => (Ok {| h_id := w_histories w; h_history := h |}, upd_histories S w')
  end.

Definition current_layers (m : ModelObj) : M (list Layer) := λ w,
  (Ok (model_layers w m), w).

Definition fit (model : value) (x : Array) (y : list (list nat))
    (validation_data : Array * list (list nat)) (epochs batch_size verbose : nat)
  : M History :=
  match model with
  | PyNone => lift (Raise AttributeError)
  | PyObject ref =>
      m ← get_model ref;
      ls ← current_layers m;
      run_training ref {| fc_model := m; fc_layers := ls;
                          fc_x := x; fc_y := y;
                          fc_validation_data := validation_data;
                          fc_epochs := epochs; fc_batch_size := batch_size;
                          fc_verbose := verbose |}
  end.

End Keras.

(** ** The notebook *)

(** The global names cells 1 and 2 bind. *)
Record Globals := mkGlobals {
  train_files : list string;  train_targets : list (list nat);
  valid_files : list string;  valid_targets : list (list nat);
  test_files : list string;   test_targets : list (list nat);
  dog_names : list string;
  num_classes : nat;
  train_tensors : Array;
  valid_tensors : Array;
  test_tensors : Array }.

Section Notebook.

Variable shuffle_indices : nat → list nat.
Variable access : Access.
Variable inception_depth : nat.
Variable training : FitCall → res HistoryDict.

(** [repr(x)] and ['%f' % x] of a float, and the address [id] gives the
    [n]-th [History] object. *)
Variable float_repr : float → string.
Variable float_format_f : float → string.
Variable address : nat → N.

(** *** Cell 1 and cell 2: the data *)

Definition cells_1_2 (fs : FileSystem) : M Globals :=
  '(train_files, train_targets) ←
    lift (load_dataset shuffle_indices access fs "dogImages/train");
  '(valid_files, valid_targets) ←
    lift (load_dataset shuffle_indices access fs "dogImages/valid");
  '(test_files, test_targets) ←
    lift (load_dataset shuffle_indices access fs "dogImages/test");
  let dog_names := slice 20 1 <$> sorted (glob_dirs fs "dogImages/train") in
  let num_classes := length dog_names in
  print ("There are " +:+ pretty (length dog_names) +:+ " total dog categories.");;
  print ("There are "
         +:+ pretty (length (train_files ++ valid_files ++ test_files))
         +:+ " total dog images." +:+ String (ascii_of_nat 10) EmptyString);;
  print ("There are " +:+ pretty (length train_files) +:+ " training dog images.");;
  print ("There are " +:+ pretty (length valid_files) +:+ " validation dog images.");;
  print ("There are " +:+ pretty (length test_files) +:+ " test dog images.");;
  train_tensors ← lift (astype_float32_div_255 <$> paths_to_tensor access train_files);
  valid_tensors ← lift (astype_float32_div_255 <$> paths_to_tensor access valid_files);
  test_tensors ← lift (astype_float32_div_255 <$> paths_to_tensor access test_files);
  mret {| train_files := train_files; train_targets := train_targets;
          valid_files := valid_files; valid_targets := valid_targets;
          test_files := test_files; test_targets := test_targets;
          dog_names := dog_names; num_classes := num_classes;
          train_tensors := train_tensors; valid_tensors := valid_tensors;
          test_tensors := test_tensors |}.

Section Functions.

Variable g : Globals.

(** *** Cells 3 to 5: the three builders

    Each [..._locals] is the body of the function up to its last
    statement and gives the local names the properties speak of; the
    function itself adds the entry into the log and what it returns. *)

Definition scratch_locals : M nat :=
  base_scratch_model ← InceptionV3 inception_depth None (drop 1 (shape (train_tensors g)));
  x ← model_output base_scratch_model;
  x ← apply_layer GlobalAveragePooling2D x;
  x ← apply_layer (Dense 512 relu) x;
  scratch_predictions ← apply_layer (Dense (num_classes g) softmax) x;
  inputs ← model_input base_scratch_model;
  scratch_model ← Model inputs scratch_predictions;
  mret scratch_model.

Definition create_scratch_model : M value :=
  emit (Called "create_scratch_model");;
  scratch_locals;;
  mret PyNone.

Definition finetune_locals : M nat :=
  base_finetune_model ← InceptionV3 inception_depth (Some "imagenet"%string)
                                    (drop 1 (shape (train_tensors g)));
  x ← model_output base_finetune_model;
  x ← apply_layer GlobalAveragePooling2D x;
  x ← apply_layer (Dense 512 relu) x;
  finetune_predictions ← apply_layer (Dense (num_classes g) softmax) x;
  inputs ← model_input base_finetune_model;
  Model inputs finetune_predictions.

Definition create_finetune_model : M value :=
  emit (Called "create_finetune_model");;
  model ← finetune_locals;
  mret (PyObject model).

(** The statements before the loop, with the locals [base_frozen_model]
    and [frozen_model]; then the loop. *)
Definition frozen_build : M (nat * nat) :=
  base_frozen_model ← InceptionV3 inception_depth (Some "imagenet"%string)
                                  (drop 1 (shape (train_tensors g)));
  x ← model_output base_frozen_model;
  x ← apply_layer GlobalAveragePooling2D x;
  x ← apply_layer (Dense 512 relu) x;
  frozen_predictions ← apply_layer (Dense (num_classes g) softmax) x;
  inputs ← model_input base_frozen_model;
  frozen_model ← Model inputs frozen_predictions;
  mret (base_frozen_model, frozen_model).

Definition freeze (base_frozen_model : nat) : M unit :=
  base ← get_model base_frozen_model;
  for_each (layers base) (λ layer, set_trainable false layer).

Definition frozen_locals : M (nat * nat) :=
  '(base_frozen_model, frozen_model) ← frozen_build;
  freeze base_frozen_model;;
  mret (base_frozen_model, frozen_model).

Definition create_frozen_model : M value :=
  emit (Called "create_frozen_model");;
  frozen_locals;;
  mret PyNone.

(** *** Cell 6: [train] and the sweep *)

Definition epochs : nat := 2.

Definition train (model : value) (solver : string) (lr : float) : M Result :=
  (if decide (lower solver = "sgd"%string) then
     method model;;
     opt ← lift (SGD lr 0.9%float false);
     compile model opt
   else if decide (lower solver = "nesterov"%string) then
     method model;;
     opt ← lift (SGD lr 0.9%float true);
     compile model opt
   else if decide (lower solver = "adam"%string) then
     method model;;
     opt ← lift (Adam lr 0.9%float 0.999%float 1e-8%float
                      [("momentum"%string, 0.9%float)]);
     compile model opt
   else mret ());;
  result ← fit training model
               (array_upto 48 (train_tensors g)) (upto 48 (train_targets g))
               (array_upto 20 (valid_tensors g), upto 20 (valid_targets g))
               epochs 4 1;
  mret (solver, lr, result).

(** The two nested loops, for the lists the globals [solvers] and
    [learning_rates] hold. *)
Definition sweep (solvers : list string) (learning_rates : list float) : M unit :=
  for_each solvers (λ solver,
    for_each learning_rates (λ lr,
      print ("Training " +:+ solver +:+ " with a learning rate of "
             +:+ float_format_f lr);;
      model ← create_finetune_model;
      r ← train model solver lr;
      results_append r)).

End Functions.

Definition solvers : list string := ["sgd"%string].
Definition learning_rates : list float := [5e-4%float; 1e-3%float].

(** [results = []] *)
Definition results_reset : M unit := λ w, (Ok (), upd_results (λ _, []) w).

Definition cell_6 (g : Globals) : M unit :=
  results_reset;;
  sweep g solvers learning_rates.

(** *** Cell 7: [print(results)] *)

(** [repr] of a string without quotes, backslashes or control characters. *)
Definition str_repr (s : string) : string := "'" +:+ s +:+ "'".

(** The default [repr] of an object of class [History]. *)
Definition history_repr (h : History) : string :=
  "<keras.callbacks.History object at " +:+ HexString.of_N (address (h_id h)) +:+ ">".

Definition result_repr (r : Result) : string :=
  "(" +:+ str_repr r.1.1 +:+ ", " +:+ float_repr r.1.2 +:+ ", "
      +:+ history_repr r.2 +:+ ")".

Fixpoint join_with (sep : string) (l : list string) : string :=
  match l with
  | [] => EmptyString
  | [x] => x
  | x :: l' => x +:+ sep +:+ join_with sep l'
  end.

Definition results_repr (results : list Result) : string :=
  "[" +:+ join_with ", " (result_repr <$> results) +:+ "]".

Definition cell_7 : M unit := λ w,
  print (results_repr (w_results w)) w.

(** *** The notebook, run from its first cell to its last *)

Definition notebook (fs : FileSystem) : M unit :=
  g ← cells_1_2 fs;
  cell_6 g;;
  cell_7.

End Notebook.

(** * Statements

    The predicates the properties are stated with, the words of the
    description where a property departs from them, and the data the
    properties are run on. *)

(** The layer objects of the pretrained graph, and of the head every builder
    adds to it. *)
Definition base_layers (depth : nat) (ws : Weights) (b : bool) : list Layer :=
  (λ i, {| l_config := InceptionLayer i; l_weights := ws; trainable := b |}) <$> seq 0 depth.

Definition head_layers (classes : nat) : list Layer :=
  [ {| l_config := GlobalAveragePooling2D; l_weights := random_weights; trainable := true |};
    {| l_config := Dense 512 relu; l_weights := random_weights; trainable := true |};
    {| l_config := Dense classes softmax; l_weights := random_weights; trainable := true |} ].

(** The two model objects a builder makes when [first] is the next free
    layer reference. *)
Definition base_object (depth first : nat) (shape_in : list nat) : ModelObj :=
  {| layers := seq first depth;
     input_shape := shape_in;
     output_shape := (inception_side <$> take 2 shape_in) ++ [2048];
     optimizer := None |}.

Definition extended_object (depth first classes : nat) (shape_in : list nat) : ModelObj :=
  {| layers := seq first (depth + 3);
     input_shape := shape_in;
     output_shape := [classes];
     optimizer := None |}.

(** The state after a builder that started in [w]. *)
Definition built (depth : nat) (g : Globals) (ws : Weights) (b : bool) (w : World) : World :=
  let shape_in := drop 1 (shape (train_tensors g)) in
  upd_models (.++ [base_object depth (length (w_layers w)) shape_in;
                   extended_object depth (length (w_layers w)) (num_classes g) shape_in])
    (upd_layers (.++ (base_layers depth ws b ++ head_layers (num_classes g))) w).

(** The model a builder leaves in its local variable, with the layer objects
    it refers to, when the builder is started in [w]. *)
Definition variant (locals : M nat) (w : World) : option (ModelObj * list Layer) :=
  match locals w with
  | (Ok ref, w') => (λ m, (m, model_layers w' m)) <$> w_models w' !! ref
  | (Raise _, _) => None
  end.

Definition scratch_variant depth g := variant (scratch_locals depth g).
Definition finetune_variant depth g := variant (finetune_locals depth g).
Definition frozen_variant depth g :=
  variant ('(_, frozen_model) ← frozen_locals depth g; mret frozen_model).

(** The description's words: two variants are the same model but for which
    of their layers are trainable. *)
Definition differ_only_in_trainable (a b : ModelObj * list Layer) : Prop :=
  a.1 = b.1 ∧ with_trainable true <$> a.2 = with_trainable true <$> b.2.

Definition variants_differ_only_in_trainable depth g w : Prop :=
  ∃ s f z,
    scratch_variant depth g w = Some s
    ∧ finetune_variant depth g w = Some f
    ∧ frozen_variant depth g w = Some z
    ∧ differ_only_in_trainable s f
    ∧ differ_only_in_trainable f z
    ∧ differ_only_in_trainable s z.

(** The number of layers Keras 2 gives [InceptionV3(include_top=False)]. *)
Definition keras_depth : nat := 311.

(** Globals as cells 1 and 2 leave them for two training images and one
    validation image in 133 classes. *)
Definition sample_globals : Globals :=
  {| train_files := ["dogImages/train/001.A/a.jpg"; "dogImages/train/002.B/b.jpg"]%string;
     train_targets := [one_hot 133 0; one_hot 133 1];
     valid_files := ["dogImages/valid/001.A/c.jpg"]%string;
     valid_targets := [one_hot 133 0];
     test_files := []; test_targets := [];
     dog_names := (λ i, pretty i) <$> seq 0 133;
     num_classes := 133;
     train_tensors := {| arr_rows := ["dogImages/train/001.A/a.jpg";
                                      "dogImages/train/002.B/b.jpg"]%string;
                         arr_row_shape := [224; 224; 3]; arr_scaled := true |};
     valid_tensors := {| arr_rows := ["dogImages/valid/001.A/c.jpg"]%string;
                         arr_row_shape := [224; 224; 3]; arr_scaled := true |};
     test_tensors := {| arr_rows := []; arr_row_shape := [224; 224; 3];
                        arr_scaled := true |} |}.

(** [w'] has the log of [w] and then only events that satisfy [Q]. *)
Definition log_extends (Q : Event → Prop) (w w' : World) : Prop :=
  ∃ newlog, w_log w' = w_log w ++ newlog ∧ Forall Q newlog.

(** Whatever it returns or raises, [m] logs only events that satisfy [Q]. *)
Definition logs (Q : Event → Prop) {A} (m : M A) : Prop :=
  ∀ w, log_extends Q w (m w).2.

(** The events [train] may log: a [compile], or a [fit] on the first 48
    training rows and targets, validated on the first 20 validation rows and
    targets. *)
Definition train_event (g : Globals) (e : Event) : Prop :=
  match e with
  | Compiled _ _ => True
  | Fitted _ c =>
      fc_x c = array_upto 48 (train_tensors g)
      ∧ fc_y c = upto 48 (train_targets g)
      ∧ fc_validation_data c = (array_upto 20 (valid_tensors g), upto 20 (valid_targets g))
      ∧ fc_epochs c = epochs ∧ fc_batch_size c = 4
  | _ => False
  end.

(** The call of [fit] that [train] makes on the model object [m]. *)
Definition train_call (g : Globals) (m : ModelObj) (ls : list Layer) : FitCall :=
  {| fc_model := m; fc_layers := ls;
     fc_x := array_upto 48 (train_tensors g);
     fc_y := upto 48 (train_targets g);
     fc_validation_data := (array_upto 20 (valid_tensors g), upto 20 (valid_targets g));
     fc_epochs := epochs; fc_batch_size := 4; fc_verbose := 1 |}.

(** The models that were fitted and the notebook functions that were called,
    in the order of a log. *)
Definition fitted_models (log : list Event) : list nat :=
  omap (λ e, match e with Fitted ref _ => Some ref | _ => None end) log.

Definition called (log : list Event) : list string :=
  omap (λ e, match e with Called f => Some f | _ => None end) log.

(** The pairs the two nested loops go through, in their order. *)
Fixpoint grid {A B} (xs : list A) (ys : list B) : list (A * B) :=
  match xs with
  | [] => []
  | x :: xs' => (pair x <$> ys) ++ grid xs' ys
  end.

(** The solver and the learning rate of a result. *)
Definition configuration (r : Result) : string * float := (r.1.1, r.1.2).

(** From [w] to [w'] the configurations [pairs] were swept, in this order:
    one result per pair was appended, each with a [History] of its own; per
    pair two model objects were made (the base and its extension), of which
    the extension was fitted; and [create_finetune_model] was called once
    per pair, and no other function of the notebook. *)
Definition swept (w w' : World) (pairs : list (string * float)) : Prop :=
  (∃ news, w_results w' = w_results w ++ news
           ∧ configuration <$> news = pairs
           ∧ (λ r : Result, h_id r.2) <$> news = seq (w_histories w) (length pairs))
  ∧ w_histories w' = w_histories w + length pairs
  ∧ length (w_models w') = length (w_models w) + 2 * length pairs
  ∧ (∃ newlog, w_log w' = w_log w ++ newlog
               ∧ fitted_models newlog
                 = (λ k, length (w_models w) + 2 * k + 1) <$> seq 0 (length pairs)
               ∧ called newlog
                 = replicate (length pairs) "create_finetune_model"%string).

(** The solvers [train] compiles a model for. *)
Definition supported (solver : string) : Prop :=
  lower solver = "sgd"%string ∨ lower solver = "nesterov"%string.

(** A framework to run the notebook on.  Training a compiled model gives the
    metrics the notebook's first recorded run shows, and training a model
    that was not compiled raises, as Keras does. *)
Definition sample_training (c : FitCall) : res HistoryDict :=
  match optimizer (fc_model c) with
  | None => Raise RuntimeError
  | Some _ => Ok [("val_loss"%string, [5.1840%float; 5.1333%float]);
                  ("val_acc"%string, [0.0%float; 0.05%float]);
                  ("loss"%string, [5.0051%float; 4.6460%float]);
                  ("acc"%string, [0.0%float; 0.0208%float])]
  end.

(** ['%f' % lr] and [repr(lr)] for the two learning rates of the notebook. *)
Definition sample_format_f (x : float) : string :=
  if PrimFloat.eqb x 5e-4%float then "0.000500" else "0.001000".

Definition sample_repr (x : float) : string :=
  if PrimFloat.eqb x 5e-4%float then "0.0005" else "0.001".

(** A [fit] in the log is on the first 48 training rows and targets at most,
    and validates on the first 20 validation rows and targets at most. *)
Definition fit_on_prefixes (g : Globals) (e : Event) : Prop :=
  match e with
  | Fitted _ c =>
      arr_rows (fc_x c) = take 48 (arr_rows (train_tensors g))
      ∧ length (arr_rows (fc_x c)) ≤ 48
      ∧ fc_y c = take 48 (train_targets g)
      ∧ length (fc_y c) ≤ 48
      ∧ arr_rows (fc_validation_data c).1 = take 20 (arr_rows (valid_tensors g))
      ∧ length (arr_rows (fc_validation_data c).1) ≤ 20
      ∧ (fc_validation_data c).2 = take 20 (valid_targets g)
      ∧ length (fc_validation_data c).2 ≤ 20
  | _ => True
  end.

(** Whether a call of [train] gets as far as the training run: the model is
    a model object, and the solver is not ['adam'], whose optimizer cannot be
    constructed. *)
Definition reaches_fit (model : value) (solver : string) (w : World) : bool :=
  match model with
  | PyNone => false
  | PyObject ref =>
      bool_decide (is_Some (w_models w !! ref))
      && negb (bool_decide (lower solver = "adam"%string))
  end.

(** An event that is not a call of a builder other than
    [create_finetune_model]. *)
Definition only_finetune (e : Event) : Prop :=
  match e with
  | Called f => f = "create_finetune_model"%string
  | _ => True
  end.

(** A row of the given width with one entry equal to 1 and every other entry
    equal to 0. *)
Definition is_one_hot (width : nat) (row : list nat) : Prop :=
  length row = width
  ∧ ∃ i, row !! i = Some 1 ∧ ∀ j, j ≠ i → j < width → row !! j = Some 0.

(** The sub-directories of a path: the categories of the loader. *)
Definition subdirectories (fs : FileSystem) (path : string) : list Entry :=
  filter (λ e, e_is_dir e = true) (default [] (fs !! path)).

(** [n] as three digits. *)
Definition three_digits (n : nat) : string :=
  if decide (n < 10) then "00" +:+ pretty n
  else if decide (n < 100) then "0" +:+ pretty n
  else pretty n.

(** The directory of the [i]-th class, named like [001.breed0], with one
    image. *)
Definition class_entry (i : nat) : Entry :=
  {| e_name := three_digits (S i) +:+ ".breed" +:+ pretty i;
     e_is_dir := true;
     e_files := ["dog_" +:+ pretty i +:+ ".jpg"] |}.

(** A data set whose training directory holds [extra] and then [classes]
    class directories; validation and test hold one image of the first
    class. *)
Definition dataset (classes : nat) (extra : list Entry) : FileSystem :=
  {[ "dogImages/train"%string := extra ++ (class_entry <$> seq 0 classes);
     "dogImages/valid"%string := [class_entry 0];
     "dogImages/test"%string := [class_entry 0] ]}.

(** A shuffle: the indices in reverse. *)
Definition sample_shuffle (n : nat) : list nat := reverse (seq 0 n).

(** A disk on which every path can be listed and read, and every file is an
    image. *)
Definition sample_access : Access :=
  {| listable := λ _, true; readable := λ _, true; load_img_error := λ _, None |}.

(** The sub-directories [glob] matches with [*/]: those whose name does not
    start with a dot. *)
Definition visible_subdirectories (fs : FileSystem) (path : string) : list Entry :=
  filter (λ e, hidden (e_name e) = false) (subdirectories fs path).

(** A hidden directory next to 132 class directories in the training
    directory. *)
Definition checkpoints : Entry :=
  {| e_name := ".ipynb_checkpoints"; e_is_dir := true; e_files := [] |}.

(** The description's words for C7: the output width is the number of
    sub-directories of the training directory, and it matches the width of
    the targets exactly when there are 133 of them. *)
Definition widths_match_iff_133_subdirectories
    (shuffle : nat → list nat) (access : Access) (fs : FileSystem) : Prop :=
  ∀ g w', cells_1_2 shuffle access fs empty_world = (Ok g, w') →
    num_classes g = length (subdirectories fs "dogImages/train")
    ∧ (Forall (λ row, [num_classes g] = [length row]) (train_targets g)
       ↔ length (subdirectories fs "dogImages/train") = 133).

(** The data set of the notebook's recorded run in small: 133 classes with
    an image each. *)
Definition sample_cells_1_2 : res Globals * World :=
  cells_1_2 sample_shuffle sample_access (dataset 133 []) empty_world.

Definition loaded_globals : Globals :=
  match sample_cells_1_2.1 with
  | Ok g => g
  | Raise _ => sample_globals
  end.

(** A result without the metrics of its history: the solver, the learning
    rate and the identity of the [History] object are kept. *)
Definition without_metrics (r : Result) : Result :=
  (r.1, {| h_id := h_id r.2; h_history := [] |}).

(** The description's words for C8.  The validation losses a history
    records, the last of them, and the configuration whose last validation
    loss is the lowest; the program compares validation losses when what its
    last cell prints settles which configuration that is. *)
Definition val_loss (h : History) : list float :=
  default [] (snd <$> head (filter (λ kv, kv.1 = "val_loss"%string) (h_history h))).

Definition final_val_loss (r : Result) : option float := last (val_loss r.2).

Fixpoint lowest (results : list Result) : option Result :=
  match results with
  | [] => None
  | r :: rest =>
      match lowest rest with
      | None => Some r
      | Some best =>
          match final_val_loss r, final_val_loss best with
          | Some a, Some b => if PrimFloat.leb a b then Some r else Some best
          | Some _, None => Some r
          | None, _ => Some best
          end
      end
  end.

Definition lowest_validation_loss (results : list Result) : option (string * float) :=
  configuration <$> lowest results.

Definition print_settles_lowest_validation_loss
    (float_repr : float → string) (address : nat → N) : Prop :=
  ∀ results1 results2,
    results_repr float_repr address results1 = results_repr float_repr address results2 →
    lowest_validation_loss results1 = lowest_validation_loss results2.

(** The addresses of the two [History] objects of the recorded run. *)
Definition sample_address (n : nat) : N :=
  match n with
  | 0 => 0x7f5d57a4b748%N
  | _ => 0x7f5d393ec7f0%N
  end.

(** The results of the recorded run, and the same results with the
    validation losses of the two runs exchanged. *)
Definition recorded_results : list Result :=
  [ ("sgd"%string, 5e-4%float,
     {| h_id := 0; h_history := [("val_loss"%string, [5.1840%float; 5.1333%float])] |});
    ("sgd"%string, 1e-3%float,
     {| h_id := 1; h_history := [("val_loss"%string, [5.5274%float; 5.5600%float])] |}) ].

Definition exchanged_results : list Result :=
  [ ("sgd"%string, 5e-4%float,
     {| h_id := 0; h_history := [("val_loss"%string, [5.5274%float; 5.5600%float])] |});
    ("sgd"%string, 1e-3%float,
     {| h_id := 1; h_history := [("val_loss"%string, [5.1840%float; 5.1333%float])] |}) ].

(** A state in which [results] still holds the triples of an earlier run of
    cell 6. *)
Definition stale_world : World := upd_results (λ _, recorded_results) empty_world.

(** The categories of the loader in the order of their labels, and the file
    names the loader makes for the entries of one of them. *)
Definition categories (fs : FileSystem) (path : string) : list Entry :=
  merge_sort entry_le (subdirectories fs path).

Definition documents (path : string) (folder : Entry) : list string :=
  join (join path (e_name folder)) <$> sorted (e_files folder).

(** The file [file] lies in the category with label [label]. *)
Definition in_category (fs : FileSystem) (path : string) (file : string) (label : nat)
  : Prop :=
  ∃ folder doc,
    categories fs path !! label = Some folder
    ∧ doc ∈ e_files folder
    ∧ file = join (join path (e_name folder)) doc.

(** Every document of the loader for [path], category by category, and the
    label of each. *)
Definition all_documents (fs : FileSystem) (path : string) : list string :=
  mjoin (documents path <$> categories fs path).

Definition all_labels (fs : FileSystem) (path : string) : list nat :=
  mjoin (imap (λ label folder, replicate (length (documents path folder)) label)
              (categories fs path)).

(** The documents and the labels after the shuffle. *)
Definition listed (shuffle : nat → list nat) (fs : FileSystem) (path : string)
  : list string :=
  fancy_index (all_documents fs path) (shuffle (length (all_documents fs path))).

Definition listed_labels (shuffle : nat → list nat) (fs : FileSystem) (path : string)
  : list nat :=
  fancy_index (all_labels fs path) (shuffle (length (all_documents fs path))).

(** The loader gets through its listing and reading: the path is a
    directory, each of its sub-directories can be listed, and each document
    the loader lists can be read. *)
Definition can_load (shuffle : nat → list nat) (access : Access)
    (fs : FileSystem) (path : string) : Prop :=
  is_Some (fs !! path)
  ∧ Forall (λ folder, listable access (join path (e_name folder)) = true)
           (categories fs path)
  ∧ Forall (λ file, readable access file = true) (listed shuffle fs path).

Global Instance can_load_dec shuffle access fs path :
  Decision (can_load shuffle access fs path).
Proof. unfold can_load. apply _. Defined.

(** A shuffle that is one: it gives each of the [n] indices once. *)
Definition is_shuffle (shuffle : nat → list nat) : Prop :=
  ∀ n, shuffle n ≡ₚ seq 0 n.

(** The five lines cell 1 prints for given directory names and file
    names. *)
Definition statistics (names train valid test : list string) : list string :=
  [ "There are " +:+ pretty (length names) +:+ " total dog categories.";
    "There are " +:+ pretty (length (train ++ valid ++ test))
      +:+ " total dog images." +:+ String (ascii_of_nat 10) EmptyString;
    "There are " +:+ pretty (length train) +:+ " training dog images.";
    "There are " +:+ pretty (length valid) +:+ " validation dog images.";
    "There are " +:+ pretty (length test) +:+ " test dog images." ]%string.

(** A string of the ASCII range: each of its bytes is a character. *)
Fixpoint ascii_only (s : string) : bool :=
  match s with
  | EmptyString => true
  | String c s' => bool_decide (nat_of_ascii c < 128) && ascii_only s'
  end.

(** [name[4:]] for a name of the ASCII range: a directory name without its
    first four characters. *)
Definition breed (name : string) : string :=
  String.substring 4 (String.length name - 4) name.

(** From [w] to [w'] a builder has worked: [depth + 3] new layer objects
    and two new model objects, the base and its extension, were added after
    the ones that were there; the extension refers to the layer objects of
    the base themselves and to the three that were made last; neither model
    has an optimizer; and histories and results are as they were. *)
Definition allocates (depth : nat) (w w' : World) : Prop :=
  ∃ new base model,
    w_layers w' = w_layers w ++ new
    ∧ length new = depth + 3
    ∧ w_models w' = w_models w ++ [base; model]
    ∧ layers base = seq (length (w_layers w)) depth
    ∧ layers model = layers base ++ seq (length (w_layers w) + depth) 3
    ∧ optimizer base = None
    ∧ optimizer model = None
    ∧ w_histories w' = w_histories w
    ∧ w_results w' = w_results w.

(** A state in which a fine-tune model was just built on the sample
    globals, over a graph of two layers. *)
Definition sample_world : World :=
  (create_finetune_model 2 sample_globals empty_world).2.

(** The body of the two loops of cell 6. *)
Definition sweep_body (depth : nat) (training : FitCall → res HistoryDict)
    (float_format_f : float → string) (g : Globals) (solver : string) (lr : float)
  : M unit :=
  print ("Training " +:+ solver +:+ " with a learning rate of " +:+ float_format_f lr);;
  model ← create_finetune_model depth g;
  r ← train training g model solver lr;
  results_append r.

(** The line the sweep prints for a pair, and the optimizer [train] compiles
    a model with for it. *)
Definition announcement (float_format_f : float → string) (p : string * float) : string :=
  "Training " +:+ p.1 +:+ " with a learning rate of " +:+ float_format_f p.2.

Definition sgd_for (p : string * float) : Optimizer :=
  SGD_optimizer p.2 0.9%float (bool_decide (lower p.1 = "nesterov"%string)).

(** The lines the [print] statements of the notebook wrote, and the
    optimizers models were compiled with, in the order of a log.  What a
    library writes itself, such as the progress of a training run, belongs
    to its call. *)
Definition stdout (log : list Event) : list string :=
  omap (λ e, match e with Stdout text => Some text | _ => None end) log.

Definition compiled (log : list Event) : list Optimizer :=
  omap (λ e, match e with Compiled _ opt => Some opt | _ => None end) log.

(** The layer objects one call of [create_finetune_model] makes, and the
    layer references of the model objects [n] calls make, two per call,
    when [first] is the next free layer reference. *)
Definition finetune_layers (depth : nat) (g : Globals) : list Layer :=
  base_layers depth imagenet_weights true ++ head_layers (num_classes g).

Definition finetune_references (depth first k : nat) : list (list nat) :=
  [seq (first + k * (depth + 3)) depth; seq (first + k * (depth + 3)) (depth + 3)].

(** From [w] to [w'] each of [pairs] was announced, given a fine-tune model
    of its own, and that model compiled for the pair: the layer and model
    objects that were there are as they were; per pair the layer objects of
    one fine-tune model were added, and two model objects, the base, never
    compiled, and its extension, compiled for the pair. *)
Definition explored (depth : nat) (float_format_f : float → string) (g : Globals)
    (w w' : World) (pairs : list (string * float)) : Prop :=
  w_layers w' = w_layers w ++ mjoin (replicate (length pairs) (finetune_layers depth g))
  ∧ (∃ news, w_models w' = w_models w ++ news
             ∧ layers <$> news
               = mjoin (finetune_references depth (length (w_layers w))
                          <$> seq 0 (length pairs))
             ∧ optimizer <$> news = mjoin ((λ p, [None; Some (sgd_for p)]) <$> pairs))
  ∧ (∃ newlog, w_log w' = w_log w ++ newlog
               ∧ stdout newlog = announcement float_format_f <$> pairs
               ∧ compiled newlog = sgd_for <$> pairs).

(** The solvers and the learning rates that cell 6 keeps in a comment. *)
Definition commented_solvers : list string := ["sgd"; "nesterov"; "adam"]%string.
Definition commented_learning_rates : list float := [1e-3%float; 5e-4%float; 1e-4%float].

(** Globals that differ from [g] in what was loaded from [dogImages/test]
    only. *)
Definition with_test (g : Globals) (files : list string) (targets : list (list nat))
    (tensors : Array) : Globals :=
  {| train_files := train_files g; train_targets := train_targets g;
     valid_files := valid_files g; valid_targets := valid_targets g;
     test_files := files; test_targets := targets;
     dog_names := dog_names g; num_classes := num_classes g;
     train_tensors := train_tensors g; valid_tensors := valid_tensors g;
     test_tensors := tensors |}.

(** * Properties *)

(** ** Running statements *)

Lemma bind_run {A B} (m : M A) (f : A → M B) (w : World) :
  (m ≫= f) w = match m w with
               | (Ok a, w') => f a w'
               | (Raise e, w') => (Raise e, w')
               end.
Proof. reflexivity. Qed.

Lemma new_layers_run (ls : list Layer) (w : World) :
  new_layers ls w
  = (Ok (seq (length (w_layers w)) (length ls)), upd_layers (.++ ls) w).
Proof.
  revert w. induction ls as [|l ls IH]; intros [lw mw hw rw ew].
  - cbn. unfold upd_layers; cbn. by rewrite app_nil_r.
  - cbn [new_layers]. rewrite bind_run. cbn [new_layer upd_layers w_layers w_models
      w_histories w_results w_log].
    rewrite bind_run, IH. cbn.
    unfold upd_layers; cbn. rewrite length_app, <- app_assoc. cbn.
    by rewrite Nat.add_1_r.
Qed.

Lemma for_each_set_trainable (b : bool) (refs : list nat) (w : World) :
  for_each refs (λ layer, set_trainable b layer) w
  = (Ok (), upd_layers (λ ls, foldl (λ acc r, alter (with_trainable b) r acc) ls refs) w).
Proof.
  revert w. induction refs as [|r refs IH]; intros [lw mw hw rw ew].
  - reflexivity.
  - cbn [for_each]. rewrite bind_run. cbn [set_trainable]. rewrite IH. reflexivity.
Qed.

(** ** Lists of objects and references *)

Lemma lookup_fresh {A} (l : list A) (x : A) (rest : list A) :
  (l ++ x :: rest) !! length l = Some x.
Proof. by apply list_lookup_middle. Qed.

Lemma omap_lookup_new {A} (old new : list A) :
  omap (λ r, (old ++ new) !! r) (seq (length old) (length new)) = new.
Proof.
  revert old. induction new as [|x new IH]; intros old; [done|].
  cbn [length seq omap list_omap]. rewrite lookup_fresh. f_equal.
  specialize (IH (old ++ [x])). rewrite length_app, <- app_assoc in IH. cbn in IH.
  by rewrite Nat.add_1_r in IH.
Qed.

Lemma foldl_alter_lookup_out {A} (f : A → A) (refs : list nat) (l : list A) (i : nat) :
  i ∉ refs → foldl (λ acc r, alter f r acc) l refs !! i = l !! i.
Proof.
  revert l. induction refs as [|r refs IH]; intros l Hi; cbn; [done|].
  apply not_elem_of_cons in Hi as [Hne Hi].
  rewrite IH by done. by rewrite list_lookup_alter_ne.
Qed.

Lemma foldl_alter_lookup_in {A} (f : A → A) (refs : list nat) (l : list A) (i : nat) :
  (∀ x, f (f x) = f x) → i ∈ refs →
  foldl (λ acc r, alter f r acc) l refs !! i = f <$> l !! i.
Proof.
  intros Hf. revert l. induction refs as [|r refs IH]; intros l Hi.
  - by apply elem_of_nil in Hi.
  - cbn. destruct (decide (i ∈ refs)) as [Hin|Hnin].
    + rewrite IH by done. destruct (decide (r = i)) as [->|Hne].
      * rewrite list_lookup_alter_eq. destruct (l !! i); cbn; by rewrite ?Hf.
      * by rewrite list_lookup_alter_ne.
    + apply elem_of_cons in Hi as [->|?]; [|done].
      rewrite foldl_alter_lookup_out by done. apply list_lookup_alter_eq.
Qed.

(** ** What the builders leave in the state *)

Lemma length_base_layers depth ws b : length (base_layers depth ws b) = depth.
Proof. unfold base_layers. by rewrite length_fmap, length_seq. Qed.

Lemma seq_three (first depth : nat) :
  seq first depth ++ [first + depth; first + depth + 1; first + depth + 1 + 1]
  = seq first (depth + 3).
Proof. rewrite seq_app. cbn. repeat f_equal; lia. Qed.

Lemma pooled_shape (s : list nat) :
  layer_output_shape GlobalAveragePooling2D (s ++ [2048]) = [2048].
Proof.
  unfold layer_output_shape. rewrite length_app. cbn.
  replace (length s + 1 - 1) with (length s) by lia.
  by rewrite drop_app_length.
Qed.

(** Symbolic execution of the common body of the three builders. *)
Ltac run_builder ws :=
  intros [lw mw hw rw ew];
  cbv beta delta [InceptionV3 Model model_output model_input apply_layer built];
  rewrite !bind_run; cbn [lift]; rewrite ?decide_True by done;
  rewrite ?bind_run, new_layers_run;
  match goal with |- context [base_layers ?d _ _] => fold (base_layers d ws true) end;
  unfold mbind, M_bind, mret, M_ret, get_model, new_layer, new_model, upd_models, upd_layers;
  cbn -[seq base_layers inception_side layer_output_shape];
  rewrite lookup_fresh; cbn -[seq base_layers inception_side layer_output_shape];
  rewrite lookup_fresh; cbn -[seq base_layers inception_side layer_output_shape];
  rewrite pooled_shape, !length_app, length_base_layers, <- !app_assoc;
  cbn -[seq base_layers inception_side];
  unfold extended_object, base_object, head_layers;
  rewrite <- seq_three, !Nat.add_1_r.

Lemma scratch_locals_run depth g w :
  scratch_locals depth g w
  = (Ok (S (length (w_models w))), built depth g random_weights true w).
Proof. revert w. unfold scratch_locals. run_builder random_weights. reflexivity. Qed.

Lemma finetune_locals_run depth g w :
  finetune_locals depth g w
  = (Ok (S (length (w_models w))), built depth g imagenet_weights true w).
Proof. revert w. unfold finetune_locals. run_builder imagenet_weights. reflexivity. Qed.

Lemma frozen_build_run depth g w :
  frozen_build depth g w
  = (Ok (length (w_models w), S (length (w_models w))),
     built depth g imagenet_weights true w).
Proof. revert w. unfold frozen_build. run_builder imagenet_weights. reflexivity. Qed.

(** The loop of [create_frozen_model] on objects that were just made. *)
Lemma freeze_new {A} (f : A → A) (old new rest : list A) :
  foldl (λ acc r, alter f r acc) (old ++ new ++ rest) (seq (length old) (length new))
  = old ++ (f <$> new) ++ rest.
Proof.
  revert old. induction new as [|x new IH]; intros old; [done|].
  cbn [length seq foldl]. rewrite alter_app_r_alt, Nat.sub_diag by lia.
  specialize (IH (old ++ [f x])).
  rewrite length_app, Nat.add_1_r, <- !app_assoc in IH. cbn in IH |- *.
  by rewrite IH.
Qed.

Lemma freeze_base_layers depth ws :
  with_trainable false <$> base_layers depth ws true = base_layers depth ws false.
Proof. unfold base_layers. rewrite <- list_fmap_compose. by apply list_fmap_ext. Qed.

Lemma freeze_built depth ws (old rest : list Layer) :
  foldl (λ acc r, alter (with_trainable false) r acc)
        (old ++ base_layers depth ws true ++ rest) (seq (length old) depth)
  = old ++ base_layers depth ws false ++ rest.
Proof.
  pose proof (freeze_new (with_trainable false) old (base_layers depth ws true) rest) as H.
  rewrite length_base_layers in H. by rewrite H, freeze_base_layers.
Qed.

Lemma frozen_locals_run depth g w :
  frozen_locals depth g w
  = (Ok (length (w_models w), S (length (w_models w))),
     built depth g imagenet_weights false w).
Proof.
  unfold frozen_locals. rewrite bind_run, frozen_build_run.
  cbv beta iota. rewrite bind_run. unfold freeze. rewrite bind_run.
  destruct w as [lw mw hw rw ew].
  unfold get_model, built, upd_models, upd_layers.
  cbn -[seq base_layers for_each head_layers].
  rewrite lookup_fresh. cbn -[seq base_layers for_each head_layers].
  rewrite for_each_set_trainable. unfold upd_layers.
  cbn -[seq base_layers head_layers].
  by rewrite freeze_built.
Qed.

(** What the loop [for layer in base.layers: layer.trainable = False] does to
    any state in which [ref] names the model [base]. *)
Lemma freeze_run (ref : nat) (base : ModelObj) (w : World) :
  w_models w !! ref = Some base →
  freeze ref w
  = (Ok (), upd_layers (λ ls, foldl (λ acc r, alter (with_trainable false) r acc)
                                    ls (layers base)) w).
Proof.
  intros Hbase. unfold freeze. rewrite bind_run. unfold get_model. rewrite Hbase.
  cbn [from_option]. apply for_each_set_trainable.
Qed.

Lemma lookup_base_layer depth ws b (old rest : list Layer) (k : nat) :
  k < depth →
  (old ++ base_layers depth ws b ++ rest) !! (length old + k)
  = Some {| l_config := InceptionLayer k; l_weights := ws; trainable := b |}.
Proof.
  intros Hk. rewrite lookup_app_r by lia.
  replace (length old + k - length old) with k by lia.
  rewrite lookup_app_l by (rewrite length_base_layers; lia).
  unfold base_layers. rewrite list_lookup_fmap, lookup_seq_lt by done. done.
Qed.

(** ** The frozen builder and its loop *)

(** C6.  [create_frozen_model], started in any state, returns after it has
    set [trainable] to false on each of the [depth] layers of the base model
    it made.  Between the state just before the loop and the final state no
    layer changes its configuration or its weights, a layer outside the base
    model (the head, and every layer that existed before the call) does not
    change at all, and the model objects are the same. *)
Theorem create_frozen_model_freezes_base (depth : nat) (g : Globals) (w : World) :
  ∃ w_built w_end base,
    frozen_build depth g (upd_log (.++ [Called "create_frozen_model"%string]) w)
      = (Ok (length (w_models w), S (length (w_models w))), w_built)
    ∧ create_frozen_model depth g w = (Ok PyNone, w_end)
    ∧ w_models w_end !! length (w_models w) = Some base
    ∧ length (layers base) = depth
    ∧ (∀ r, r ∈ layers base → trainable <$> w_layers w_end !! r = Some false)
    ∧ (∀ r, r ∉ layers base → w_layers w_end !! r = w_layers w_built !! r)
    ∧ (∀ r, l_config <$> w_layers w_end !! r = l_config <$> w_layers w_built !! r
           ∧ l_weights <$> w_layers w_end !! r = l_weights <$> w_layers w_built !! r)
    ∧ take (length (w_layers w)) (w_layers w_end) = w_layers w
    ∧ w_models w_end = w_models w_built.
Proof.
  set (w0 := upd_log (.++ [Called "create_frozen_model"%string]) w).
  pose proof (frozen_build_run depth g w0) as Hbuild.
  set (w_built := built depth g imagenet_weights true w0) in *.
  set (base := base_object depth (length (w_layers w)) (drop 1 (shape (train_tensors g)))).
  assert (Hbase : w_models w_built !! length (w_models w) = Some base).
  { subst w_built w0. destruct w. apply lookup_fresh. }
  pose proof (freeze_run _ _ _ Hbase) as Hloop.
  set (w_end := upd_layers _ w_built) in Hloop.
  exists w_built, w_end, base.
  assert (Hlayers : w_layers w_end
            = foldl (λ acc r, alter (with_trainable false) r acc)
                    (w_layers w_built) (layers base)) by done.
  split; [by destruct w|].
  split.
  { unfold create_frozen_model, frozen_locals. rewrite !bind_run.
    change (emit _ w) with (Ok (), w0). cbv beta iota. rewrite !bind_run, Hbuild.
    cbv beta iota. rewrite bind_run.
    destruct w; cbn [w_models upd_log w0] in *. by rewrite Hloop. }
  split; [done|].
  split; [by cbn; rewrite length_seq|].
  split.
  { intros r Hr. rewrite Hlayers, foldl_alter_lookup_in by done.
    cbn [layers base] in Hr. apply elem_of_seq in Hr as [Hlo Hhi].
    replace r with (length (w_layers w) + (r - length (w_layers w))) by lia.
    subst w_built w0. destruct w. cbn -[base_layers head_layers].
    by rewrite lookup_base_layer by (cbn in *; lia). }
  split; [intros r Hr; by rewrite Hlayers, foldl_alter_lookup_out|].
  split.
  { intros r. rewrite Hlayers. destruct (decide (r ∈ layers base)).
    - rewrite foldl_alter_lookup_in by done.
      by destruct (w_layers w_built !! r).
    - by rewrite foldl_alter_lookup_out. }
  split; [|done].
  rewrite Hlayers. cbn [layers base]. subst w_built w0. destruct w.
  cbn -[base_layers head_layers seq]. rewrite freeze_built. apply take_app_length.
Qed.

(** ** The three variants *)

Lemma model_layers_built depth g ws b w :
  model_layers (built depth g ws b w)
    (extended_object depth (length (w_layers w)) (num_classes g)
                     (drop 1 (shape (train_tensors g))))
  = base_layers depth ws b ++ head_layers (num_classes g).
Proof.
  destruct w as [lw mw hw rw ew]. unfold model_layers.
  cbn -[base_layers head_layers seq].
  pose proof (omap_lookup_new lw (base_layers depth ws b ++ head_layers (num_classes g))) as H.
  rewrite length_app, length_base_layers in H. exact H.
Qed.

Lemma variant_built depth g ws b (locals : M nat) w :
  locals w = (Ok (S (length (w_models w))), built depth g ws b w) →
  variant locals w
  = Some (extended_object depth (length (w_layers w)) (num_classes g)
                          (drop 1 (shape (train_tensors g))),
          base_layers depth ws b ++ head_layers (num_classes g)).
Proof.
  intros Hrun. unfold variant. rewrite Hrun.
  assert (w_models (built depth g ws b w) !! S (length (w_models w))
          = Some (extended_object depth (length (w_layers w)) (num_classes g)
                                  (drop 1 (shape (train_tensors g))))) as ->.
  { destruct w as [lw mw hw rw ew]. cbn -[seq].
    pose proof (lookup_fresh
                  (mw ++ [base_object depth (length lw) (drop 1 (shape (train_tensors g)))])
                  (extended_object depth (length lw) (num_classes g)
                                   (drop 1 (shape (train_tensors g)))) []) as H.
    rewrite length_app, Nat.add_1_r, <- app_assoc in H. exact H. }
  cbn [fmap option_fmap option_map]. by rewrite model_layers_built.
Qed.

Lemma scratch_variant_is depth g w :
  scratch_variant depth g w
  = Some (extended_object depth (length (w_layers w)) (num_classes g)
                          (drop 1 (shape (train_tensors g))),
          base_layers depth random_weights true ++ head_layers (num_classes g)).
Proof. apply variant_built, scratch_locals_run. Qed.

Lemma finetune_variant_is depth g w :
  finetune_variant depth g w
  = Some (extended_object depth (length (w_layers w)) (num_classes g)
                          (drop 1 (shape (train_tensors g))),
          base_layers depth imagenet_weights true ++ head_layers (num_classes g)).
Proof. apply variant_built, finetune_locals_run. Qed.

Lemma frozen_variant_is depth g w :
  frozen_variant depth g w
  = Some (extended_object depth (length (w_layers w)) (num_classes g)
                          (drop 1 (shape (train_tensors g))),
          base_layers depth imagenet_weights false ++ head_layers (num_classes g)).
Proof.
  apply variant_built. by rewrite bind_run, frozen_locals_run.
Qed.

Lemma base_layers_config depth ws b :
  l_config <$> base_layers depth ws b = InceptionLayer <$> seq 0 depth.
Proof. unfold base_layers. rewrite <- list_fmap_compose. by apply list_fmap_ext. Qed.

Lemma base_layers_trainable depth ws b :
  trainable <$> base_layers depth ws b = replicate depth b.
Proof.
  unfold base_layers. rewrite <- list_fmap_compose.
  rewrite <- (length_seq depth 0) at 2. by apply const_fmap.
Qed.

Lemma base_layers_weights depth ws b :
  l_weights <$> base_layers depth ws b = replicate depth ws.
Proof.
  unfold base_layers. rewrite <- list_fmap_compose.
  rewrite <- (length_seq depth 0) at 2. by apply const_fmap.
Qed.

Lemma base_layers_forget depth ws b :
  with_trainable true <$> base_layers depth ws b = base_layers depth ws true.
Proof. unfold base_layers. rewrite <- list_fmap_compose. by apply list_fmap_ext. Qed.

(** Where the pretrained graph has a layer at all, a variant with random
    weights and one with ImageNet weights differ in more than a flag. *)
Lemma weights_tell_apart depth classes b b' :
  0 < depth →
  with_trainable true <$> (base_layers depth random_weights b ++ head_layers classes)
  ≠ with_trainable true <$> (base_layers depth imagenet_weights b' ++ head_layers classes).
Proof.
  intros Hd Heq. rewrite !fmap_app, !base_layers_forget in Heq.
  destruct depth as [|n]; [lia|]. discriminate Heq.
Qed.

(** C1, as the description has it, fails: started in the empty state on the
    sample globals, the scratch and the fine-tune variant have the same
    trainable flags and differ in the weights of the 311 base layers. *)
Lemma scratch_and_finetune_differ_in_weights :
  ¬ variants_differ_only_in_trainable keras_depth sample_globals empty_world.
Proof.
  intros (s & f & z & Hs & Hf & _ & [_ Hsf] & _).
  rewrite scratch_variant_is in Hs. rewrite finetune_variant_is in Hf.
  injection Hs as <-. injection Hf as <-.
  by apply (weights_tell_apart keras_depth 133 true true) in Hsf; [|unfold keras_depth; lia].
Qed.

(** C1, amended.  Started in the same state, the three builders make the
    same model object over the same input shape, with the same layer
    configurations: the Inception V3 graph, then global average pooling,
    [Dense(512, relu)] and [Dense(num_classes, softmax)].  The fine-tune and
    the frozen variant differ only in which layers are trainable (all of
    them, against the head alone).  The scratch variant has the trainable
    flags of the fine-tune variant and differs from it in the weights of the
    base layers: random, against ImageNet. *)
Theorem variants_share_architecture (depth : nat) (g : Globals) (w : World) :
  ∃ s f z,
    scratch_variant depth g w = Some s
    ∧ finetune_variant depth g w = Some f
    ∧ frozen_variant depth g w = Some z
    ∧ s.1 = f.1 ∧ f.1 = z.1
    ∧ input_shape s.1 = drop 1 (shape (train_tensors g))
    ∧ output_shape s.1 = [num_classes g]
    ∧ l_config <$> s.2
      = (InceptionLayer <$> seq 0 depth)
        ++ [GlobalAveragePooling2D; Dense 512 relu; Dense (num_classes g) softmax]
    ∧ l_config <$> f.2 = l_config <$> s.2
    ∧ l_config <$> z.2 = l_config <$> s.2
    ∧ differ_only_in_trainable f z
    ∧ trainable <$> f.2 = replicate depth true ++ replicate 3 true
    ∧ trainable <$> z.2 = replicate depth false ++ replicate 3 true
    ∧ trainable <$> s.2 = trainable <$> f.2
    ∧ l_weights <$> s.2 = replicate depth random_weights ++ replicate 3 random_weights
    ∧ l_weights <$> f.2 = replicate depth imagenet_weights ++ replicate 3 random_weights.
Proof.
  eexists _, _, _.
  split; [apply scratch_variant_is|].
  split; [apply finetune_variant_is|].
  split; [apply frozen_variant_is|].
  cbn [fst snd]. unfold differ_only_in_trainable. cbn [fst snd].
  rewrite !fmap_app, !base_layers_config, !base_layers_trainable,
    !base_layers_weights, !base_layers_forget.
  repeat split; reflexivity.
Qed.

(** ** What a statement adds to the log *)

Lemma log_extends_refl Q w : log_extends Q w w.
Proof. exists []. by rewrite app_nil_r. Qed.

Lemma log_extends_trans Q w1 w2 w3 :
  log_extends Q w1 w2 → log_extends Q w2 w3 → log_extends Q w1 w3.
Proof.
  intros (l1 & H1 & HQ1) (l2 & H2 & HQ2). exists (l1 ++ l2).
  split; [by rewrite H2, H1, app_assoc | by apply Forall_app].
Qed.

Lemma logs_weaken (Q Q' : Event → Prop) {A} (m : M A) :
  (∀ e, Q e → Q' e) → logs Q m → logs Q' m.
Proof.
  intros HQ Hm w. destruct (Hm w) as (l & Hl & HF).
  exists l. split; [done|]. by eapply Forall_impl.
Qed.

Lemma logs_silent Q {A} (m : M A) :
  (∀ w, w_log (m w).2 = w_log w) → logs Q m.
Proof. intros H w. exists []. by rewrite H, app_nil_r. Qed.

Lemma logs_ret Q {A} (a : A) : logs Q (mret a : M A).
Proof. by apply logs_silent. Qed.

Lemma logs_lift Q {A} (r : res A) : logs Q (lift r).
Proof. by apply logs_silent. Qed.

Lemma logs_emit (Q : Event → Prop) ev : Q ev → logs Q (emit ev).
Proof. intros HQ w. exists [ev]. split; [done | by constructor]. Qed.

Lemma logs_bind Q {A B} (m : M A) (f : A → M B) :
  logs Q m → (∀ a, logs Q (f a)) → logs Q (m ≫= f).
Proof.
  intros Hm Hf w. rewrite bind_run. specialize (Hm w).
  destruct (m w) as [[a|e] w']; [|done].
  eapply log_extends_trans; [exact Hm | apply Hf].
Qed.

Lemma logs_for_each Q {A} (l : list A) (body : A → M unit) :
  (∀ x, logs Q (body x)) → logs Q (for_each l body).
Proof.
  intros Hbody. induction l as [|x l IH]; cbn [for_each].
  - apply logs_ret.
  - apply logs_bind; [apply Hbody | by intros _].
Qed.

Lemma logs_method Q model : logs Q (method model).
Proof. destruct model; [apply logs_lift | apply logs_ret]. Qed.

Lemma logs_compile Q model opt :
  (∀ ref, Q (Compiled ref opt)) → logs Q (compile model opt).
Proof.
  intros HQ. destruct model as [|ref]; cbn [compile]; [apply logs_lift|].
  apply logs_bind; [by apply logs_emit | intros _; by apply logs_silent].
Qed.

Lemma logs_fit Q training model x y v e b vb :
  (∀ ref m ls, Q (Fitted ref {| fc_model := m; fc_layers := ls; fc_x := x; fc_y := y;
                                fc_validation_data := v; fc_epochs := e;
                                fc_batch_size := b; fc_verbose := vb |})) →
  logs Q (fit training model x y v e b vb).
Proof.
  intros HQ. destruct model as [|ref]; cbn [fit]; [apply logs_lift|].
  apply logs_bind; [by apply logs_silent | intros m].
  apply logs_bind; [by apply logs_silent | intros ls].
  intros w. unfold run_training.
  eexists [_]. split; [|constructor; [apply HQ | constructor]].
  by destruct (training _).
Qed.

(** ** [train] *)

Lemma train_logs training g model solver lr :
  logs (train_event g) (train training g model solver lr).
Proof.
  unfold train. apply logs_bind.
  - repeat case_decide; try apply logs_ret;
      (apply logs_bind; [apply logs_method | intros _];
       apply logs_bind; [apply logs_lift | intros opt; by apply logs_compile]).
  - intros _. apply logs_bind; [|intros; apply logs_ret].
    apply logs_fit. intros; by cbn.
Qed.

Lemma method_run ref w : method (PyObject ref) w = (Ok (), w).
Proof. reflexivity. Qed.

Lemma compile_run ref opt w :
  compile (PyObject ref) opt w
  = (Ok (), upd_models (alter (with_optimizer opt) ref)
                       (upd_log (.++ [Compiled ref opt]) w)).
Proof. reflexivity. Qed.

Lemma fit_run training ref m x y v e b vb w :
  w_models w !! ref = Some m →
  fit training (PyObject ref) x y v e b vb w
  = run_training training ref
      {| fc_model := m; fc_layers := model_layers w m; fc_x := x; fc_y := y;
         fc_validation_data := v; fc_epochs := e; fc_batch_size := b;
         fc_verbose := vb |} w.
Proof.
  intros Hm. cbn [fit]. rewrite bind_run. unfold get_model. rewrite Hm.
  cbn [from_option]. by rewrite bind_run.
Qed.

(** [train] with a solver it has no branch for is [fit] and nothing else. *)
Lemma train_unsupported training g model solver lr w :
  lower solver ≠ "sgd"%string → lower solver ≠ "nesterov"%string →
  lower solver ≠ "adam"%string →
  train training g model solver lr w
  = (result ← fit training model
                  (array_upto 48 (train_tensors g)) (upto 48 (train_targets g))
                  (array_upto 20 (valid_tensors g), upto 20 (valid_targets g))
                  epochs 4 1;
     mret (solver, lr, result)) w.
Proof.
  intros H1 H2 H3. unfold train.
  rewrite !decide_False by done. reflexivity.
Qed.

(** [train] with ['sgd'] or ['nesterov'], in any capitalisation, on a model
    object: [compile] with SGD, then [fit]. *)
Lemma train_sgd training g ref m solver lr w :
  w_models w !! ref = Some m →
  lower solver = "sgd"%string ∨ lower solver = "nesterov"%string →
  let opt := SGD_optimizer lr 0.9%float
               (bool_decide (lower solver = "nesterov"%string)) in
  let w1 := upd_models (alter (with_optimizer opt) ref)
                       (upd_log (.++ [Compiled ref opt]) w) in
  train training g (PyObject ref) solver lr w
  = match run_training training ref
            (train_call g (with_optimizer opt m) (model_layers w m)) w1 with
    | (Ok result, w2) => (Ok (solver, lr, result), w2)
    | (Raise e, w2) => (Raise e, w2)
    end.
Proof.
  intros Hm Hsolver opt w1. unfold train.
  assert (Hm1 : w_models w1 !! ref = Some (with_optimizer opt m)).
  { subst w1. destruct w. cbn in *. by rewrite list_lookup_alter_eq, Hm. }
  assert (Hls : model_layers w1 (with_optimizer opt m) = model_layers w m).
  { subst w1. by destruct w. }
  destruct Hsolver as [Hs | Hs].
  - rewrite decide_True by done. rewrite !bind_run, method_run, bind_run.
    cbn [lift SGD]. rewrite compile_run.
    replace (SGD_optimizer lr 0.9%float false) with opt
      by (subst opt; rewrite Hs; reflexivity).
    fold w1. rewrite bind_run, (fit_run _ _ _ _ _ _ _ _ _ _ Hm1), Hls. reflexivity.
  - rewrite decide_False by (rewrite Hs; done). rewrite decide_True by done.
    rewrite !bind_run, method_run, bind_run. cbn [lift SGD]. rewrite compile_run.
    replace (SGD_optimizer lr 0.9%float true) with opt
      by (subst opt; rewrite Hs; reflexivity).
    fold w1. rewrite bind_run, (fit_run _ _ _ _ _ _ _ _ _ _ Hm1), Hls. reflexivity.
Qed.

(** [train] with ['adam'] on a model object: the constructor of the
    optimizer raises before anything is compiled or fitted. *)
Lemma train_adam training g ref solver lr w :
  lower solver = "adam"%string →
  train training g (PyObject ref) solver lr w = (Raise TypeError, w).
Proof.
  intros Hs. unfold train.
  rewrite decide_False by (rewrite Hs; done).
  rewrite decide_False by (rewrite Hs; done).
  rewrite decide_True by done. reflexivity.
Qed.

(** [train] on [None]: the lookup of [compile], or of [fit] when the solver
    has no branch, raises before anything else is done. *)
Lemma train_none training g solver lr w :
  train training g PyNone solver lr w = (Raise AttributeError, w).
Proof. unfold train. repeat case_decide; reflexivity. Qed.

(** ** The sweep *)

Lemma length_grid {A B} (xs : list A) (ys : list B) :
  length (grid xs ys) = length xs * length ys.
Proof.
  induction xs as [|x xs IH]; cbn; [done|].
  by rewrite length_app, length_fmap, IH.
Qed.

Lemma swept_nil w : swept w w [].
Proof.
  repeat split; cbn; try lia.
  - exists []. by rewrite app_nil_r.
  - exists []. by rewrite app_nil_r.
Qed.

Lemma swept_app w1 w2 w3 p1 p2 :
  swept w1 w2 p1 → swept w2 w3 p2 → swept w1 w3 (p1 ++ p2).
Proof.
  intros ((n1 & Hr1 & Hc1 & Hh1) & Hi1 & Hm1 & (l1 & Hl1 & Hf1 & Hk1))
         ((n2 & Hr2 & Hc2 & Hh2) & Hi2 & Hm2 & (l2 & Hl2 & Hf2 & Hk2)).
  unfold swept. rewrite length_app. repeat split.
  - exists (n1 ++ n2). split; [by rewrite Hr2, Hr1, app_assoc|].
    split; [by rewrite fmap_app, Hc1, Hc2|].
    by rewrite fmap_app, Hh1, Hh2, Hi1, seq_app.
  - lia.
  - lia.
  - exists (l1 ++ l2). split; [by rewrite Hl2, Hl1, app_assoc|].
    unfold fitted_models, called in *. rewrite !omap_app.
    split.
    + rewrite Hf1, Hf2, Hm1, seq_app, fmap_app. f_equal.
      assert (seq (0 + length p1) (length p2) = Nat.add (length p1) <$> seq 0 (length p2))
        as -> by (by rewrite fmap_add_seq, Nat.add_0_r).
      rewrite <- list_fmap_compose.
      apply list_fmap_ext. intros _ k _. cbn. lia.
    + by rewrite Hk1, Hk2, replicate_add.
Qed.

Lemma built_model_lookup depth g ws b w :
  w_models (built depth g ws b w) !! S (length (w_models w))
  = Some (extended_object depth (length (w_layers w)) (num_classes g)
                          (drop 1 (shape (train_tensors g)))).
Proof.
  destruct w as [lw mw hw rw ew]. cbn -[seq].
  pose proof (lookup_fresh
                (mw ++ [base_object depth (length lw) (drop 1 (shape (train_tensors g)))])
                (extended_object depth (length lw) (num_classes g)
                                 (drop 1 (shape (train_tensors g)))) []) as H.
  rewrite length_app, Nat.add_1_r, <- app_assoc in H. exact H.
Qed.

Lemma create_finetune_model_run depth g w :
  create_finetune_model depth g w
  = (Ok (PyObject (S (length (w_models w)))),
     built depth g imagenet_weights true
           (upd_log (.++ [Called "create_finetune_model"%string]) w)).
Proof.
  unfold create_finetune_model. rewrite !bind_run.
  change (emit _ w) with (Ok (), upd_log (.++ [Called "create_finetune_model"%string]) w).
  cbv beta iota. rewrite bind_run, finetune_locals_run. by destruct w.
Qed.

Section Sweep.

Variable depth : nat.
Variable training : FitCall → res HistoryDict.
Variable float_format_f : float → string.
Variable g : Globals.

(** Every run of [fit] on a compiled model returns. *)
Hypothesis training_returns :
  ∀ c, is_Some (optimizer (fc_model c)) → returns (training c).

Lemma sweep_body_run solver lr w :
  supported solver →
  ∃ w', (print ("Training " +:+ solver +:+ " with a learning rate of "
                +:+ float_format_f lr);;
         model ← create_finetune_model depth g;
         r ← train training g model solver lr;
         results_append r) w = (Ok (), w')
        ∧ swept w w' [(solver, lr)].
Proof.
  intros Hs. rewrite bind_run.
  match goal with
  | |- context [print ?text w] =>
      set (line := Stdout text);
      change (print text w) with (Ok (), upd_log (.++ [line]) w)
  end.
  cbv beta iota. rewrite bind_run, create_finetune_model_run.
  cbv beta iota. rewrite bind_run.
  set (wa := upd_log _ (upd_log _ w)).
  pose proof (built_model_lookup depth g imagenet_weights true wa) as Hm.
  change (w_models wa) with (w_models w) in Hm.
  rewrite (train_sgd _ _ _ _ _ _ _ Hm Hs).
  set (opt := SGD_optimizer _ _ _).
  set (call := train_call _ _ _).
  destruct (training_returns call) as [h Hh]; [by eexists|].
  unfold run_training. rewrite Hh.
  eexists. split; [reflexivity|].
  destruct w as [lw mw hw rw ew]. unfold swept.
  cbn -[seq base_layers head_layers call line].
  repeat split.
  - eexists [_]. split; [reflexivity|]. done.
  - lia.
  - rewrite length_alter, length_app. cbn. lia.
  - exists [line; Called "create_finetune_model"%string;
            Compiled (S (length mw)) opt; Fitted (S (length mw)) call].
    split; [by rewrite <- !app_assoc|].
    split; cbn; [f_equal; lia | done].
Qed.

Lemma inner_loop_run solver lrs w :
  supported solver →
  ∃ w', for_each lrs (λ lr,
          print ("Training " +:+ solver +:+ " with a learning rate of "
                 +:+ float_format_f lr);;
          model ← create_finetune_model depth g;
          r ← train training g model solver lr;
          results_append r) w = (Ok (), w')
        ∧ swept w w' (pair solver <$> lrs).
Proof.
  intros Hs. revert w. induction lrs as [|lr lrs IH]; intros w.
  - exists w. split; [done | apply swept_nil].
  - cbn [for_each]. rewrite bind_run.
    destruct (sweep_body_run solver lr w Hs) as (w1 & -> & Hstep).
    destruct (IH w1) as (w2 & Hrun & Hrest).
    exists w2. split; [done|].
    apply (swept_app _ _ _ [(solver, lr)] _ Hstep Hrest).
Qed.

Lemma sweep_run solvers lrs w :
  Forall supported solvers →
  ∃ w', sweep depth training float_format_f g solvers lrs w = (Ok (), w')
        ∧ swept w w' (grid solvers lrs).
Proof.
  unfold sweep. intros Hs. revert w.
  induction Hs as [|solver solvers Hsolver _ IH]; intros w.
  - exists w. split; [done | apply swept_nil].
  - cbn [for_each grid]. rewrite bind_run.
    destruct (inner_loop_run solver lrs w Hsolver) as (w1 & -> & Hinner).
    destruct (IH w1) as (w2 & Hrun & Hrest).
    exists w2. split; [done|].
    apply (swept_app _ _ _ _ _ Hinner Hrest).
Qed.

End Sweep.

Lemma sample_training_returns :
  ∀ c, is_Some (optimizer (fc_model c)) → returns (sample_training c).
Proof.
  intros c [opt Hopt]. unfold sample_training. rewrite Hopt. by eexists.
Defined.

(** The models a sweep fits are as many as the pairs, no two are the same,
    and none existed before the sweep. *)
Lemma swept_fresh_models w w' pairs :
  swept w w' pairs →
  ∃ newlog, w_log w' = w_log w ++ newlog
            ∧ called newlog = replicate (length pairs) "create_finetune_model"%string
            ∧ length (fitted_models newlog) = length pairs
            ∧ NoDup (fitted_models newlog)
            ∧ Forall (λ ref, length (w_models w) ≤ ref) (fitted_models newlog).
Proof.
  intros (_ & _ & _ & (newlog & Hlog & Hfit & Hcalled)).
  exists newlog. split; [done|]. split; [done|]. rewrite Hfit.
  split; [by rewrite length_fmap, length_seq|]. split.
  - apply NoDup_fmap_2_strong; [intros a b _ _; lia | apply NoDup_seq].
  - apply Forall_fmap, Forall_forall. intros k _. cbn. lia.
Qed.

(** C3.  When every solver is one [train] compiles for (['sgd'] or
    ['nesterov'] in any capitalisation) and fitting a compiled model returns,
    the sweep returns, and it has gone through the pairs of solver and
    learning rate in the order of the nested loops, solvers outside: one
    triple of the solver, the learning rate and the history of a fit is
    appended to [results] per pair, so that [results] grows by
    [length solvers * length learning_rates]; [create_finetune_model] is
    called once per pair; and the models that are fitted are as many as the
    pairs, no two of them the same, none of them older than the sweep.  The
    cell as it is written, [results = []] and then the loops, returns too,
    and whatever [results] held before, it then holds the triples of the
    pairs and no other, in the order of the loops, each with a history of
    its own: [results] has length
    [length solvers * length learning_rates]. *)
Theorem sweep_covers_every_pair
    (depth : nat) (training : FitCall → res HistoryDict)
    (float_format_f : float → string) (g : Globals)
    (solvers : list string) (learning_rates : list float) (w : World) :
  (∀ c, is_Some (optimizer (fc_model c)) → returns (training c)) →
  Forall supported solvers →
  ∃ w' news newlog,
    sweep depth training float_format_f g solvers learning_rates w = (Ok (), w')
    ∧ w_results w' = w_results w ++ news
    ∧ configuration <$> news = grid solvers learning_rates
    ∧ length news = length solvers * length learning_rates
    ∧ w_log w' = w_log w ++ newlog
    ∧ called newlog
      = replicate (length solvers * length learning_rates) "create_finetune_model"%string
    ∧ length (fitted_models newlog) = length solvers * length learning_rates
    ∧ NoDup (fitted_models newlog)
    ∧ Forall (λ ref, length (w_models w) ≤ ref) (fitted_models newlog)
    ∧ swept w w' (grid solvers learning_rates)
    ∧ ∃ w6,
        (results_reset;; sweep depth training float_format_f g solvers learning_rates) w
        = (Ok (), w6)
        ∧ configuration <$> w_results w6 = grid solvers learning_rates
        ∧ length (w_results w6) = length solvers * length learning_rates
        ∧ (λ r : Result, h_id r.2) <$> w_results w6
          = seq (w_histories w) (length solvers * length learning_rates).
Proof.
  intros Htraining Hsolvers.
  destruct (sweep_run depth training float_format_f g Htraining
                      solvers learning_rates w Hsolvers) as (w' & Hrun & Hswept).
  pose proof Hswept as ((news & Hnews & Hconf & _) & _).
  destruct (swept_fresh_models _ _ _ Hswept)
    as (newlog & Hlog & Hcalled & Hlen & Hdup & Hfresh).
  rewrite length_grid in Hcalled, Hlen.
  exists w', news, newlog.
  split; [exact Hrun|]. split; [exact Hnews|]. split; [exact Hconf|].
  split; [by rewrite <- (length_fmap configuration), Hconf, length_grid|].
  split; [exact Hlog|]. split; [exact Hcalled|]. split; [exact Hlen|].
  split; [exact Hdup|]. split; [exact Hfresh|]. split; [exact Hswept|].
  rewrite bind_run.
  change (results_reset w) with (Ok (), upd_results (λ _, []) w). cbv beta iota.
  destruct (sweep_run depth training float_format_f g Htraining
              solvers learning_rates (upd_results (λ _, []) w) Hsolvers)
    as (w6 & Hrun6 & (news6 & Hnews6 & Hconf6 & Hids6) & _).
  exists w6. split; [exact Hrun6|].
  destruct w as [lw mw hw rw ew]. cbn in Hnews6, Hids6 |- *. rewrite Hnews6.
  split; [exact Hconf6|].
  split; [by rewrite <- (length_fmap configuration), Hconf6, length_grid|].
  by rewrite <- length_grid.
Qed.

Lemma sweep_covers_every_pair_witness :
  Forall supported solvers
  ∧ ∃ w' news newlog,
      sweep keras_depth sample_training sample_format_f sample_globals
            solvers learning_rates stale_world = (Ok (), w')
      ∧ w_results w' = w_results stale_world ++ news
      ∧ configuration <$> news = grid solvers learning_rates
      ∧ length news = length solvers * length learning_rates
      ∧ w_log w' = w_log stale_world ++ newlog
      ∧ called newlog
        = replicate (length solvers * length learning_rates)
                    "create_finetune_model"%string
      ∧ length (fitted_models newlog) = length solvers * length learning_rates
      ∧ NoDup (fitted_models newlog)
      ∧ Forall (λ ref, length (w_models stale_world) ≤ ref) (fitted_models newlog)
      ∧ swept stale_world w' (grid solvers learning_rates)
      ∧ ∃ w6,
          cell_6 keras_depth sample_training sample_format_f sample_globals stale_world
          = (Ok (), w6)
          ∧ configuration <$> w_results w6 = grid solvers learning_rates
          ∧ length (w_results w6) = length solvers * length learning_rates
          ∧ (λ r : Result, h_id r.2) <$> w_results w6
            = seq (w_histories stale_world) (length solvers * length learning_rates).
Proof.
  assert (Hs : Forall supported solvers) by (repeat constructor; by left).
  split; [exact Hs|].
  exact (sweep_covers_every_pair keras_depth sample_training sample_format_f
           sample_globals solvers learning_rates stale_world
           sample_training_returns Hs).
Defined.

(** The results of the notebook's own sweep on the sample data. *)
Example sweep_of_the_notebook :
  configuration <$> w_results (cell_6 4 sample_training sample_format_f
                                      sample_globals empty_world).2
  = [("sgd"%string, 5e-4%float); ("sgd"%string, 1e-3%float)].
Proof. reflexivity. Qed.

(** ** Unknown solvers *)

(** C5.  For a solver whose lowercase form is none of ['sgd'], ['nesterov']
    and ['adam'], [train] is the call of [fit] followed by the making of the
    triple: it returns or raises as [fit] does, it attaches no optimizer to a
    model, and it logs no [compile]. *)
Theorem train_unknown_solver_goes_to_fit
    (training : FitCall → res HistoryDict) (g : Globals)
    (model : value) (solver : string) (lr : float) (w : World) :
  lower solver ≠ "sgd"%string →
  lower solver ≠ "nesterov"%string →
  lower solver ≠ "adam"%string →
  let fitted := fit training model
                    (array_upto 48 (train_tensors g)) (upto 48 (train_targets g))
                    (array_upto 20 (valid_tensors g), upto 20 (valid_targets g))
                    epochs 4 1 w in
  let trained := train training g model solver lr w in
  trained.1 = (λ result, (solver, lr, result)) <$> fitted.1
  ∧ trained.2 = fitted.2
  ∧ w_models trained.2 = w_models w
  ∧ ∃ newlog, w_log trained.2 = w_log w ++ newlog
              ∧ Forall (λ e, match e with
                             | Fitted _ _ => True
                             | _ => False
                             end) newlog.
Proof.
  intros H1 H2 H3 fitted trained.
  assert (Htrained : trained
            = match fitted with
              | (Ok result, w') => (Ok (solver, lr, result), w')
              | (Raise e, w') => (Raise e, w')
              end).
  { subst trained fitted. by rewrite train_unsupported. }
  rewrite Htrained. clear Htrained trained.
  assert (Hfit : w_models fitted.2 = w_models w
                 ∧ ∃ newlog, w_log fitted.2 = w_log w ++ newlog
                             ∧ Forall (λ e, match e with
                                            | Fitted _ _ => True
                                            | _ => False
                                            end) newlog).
  { subst fitted. destruct model as [|ref]; cbn [fit].
    - split; [done|]. exists []. by rewrite app_nil_r.
    - rewrite bind_run. unfold get_model.
      destruct (w_models w !! ref) as [m|]; cbn [from_option].
      + rewrite bind_run. cbn. unfold run_training.
        destruct (training _); (split; [by destruct w|]);
          eexists [_]; (split; [by destruct w|]); by repeat constructor.
      + split; [done|]. exists []. by rewrite app_nil_r. }
  destruct fitted as [[result|e] w']; done.
Qed.

Lemma train_unknown_solver_goes_to_fit_witness :
  let w := (create_finetune_model 4 sample_globals empty_world).2 in
  let fitted := fit sample_training (PyObject 1)
                    (array_upto 48 (train_tensors sample_globals))
                    (upto 48 (train_targets sample_globals))
                    (array_upto 20 (valid_tensors sample_globals),
                     upto 20 (valid_targets sample_globals))
                    epochs 4 1 w in
  let trained := train sample_training sample_globals (PyObject 1)
                       "RMSprop"%string 1e-3%float w in
  trained.1 = (λ result, ("RMSprop"%string, 1e-3%float, result)) <$> fitted.1
  ∧ trained.2 = fitted.2
  ∧ w_models trained.2 = w_models w
  ∧ ∃ newlog, w_log trained.2 = w_log w ++ newlog
              ∧ Forall (λ e, match e with
                             | Fitted _ _ => True
                             | _ => False
                             end) newlog.
Proof.
  apply (train_unknown_solver_goes_to_fit sample_training sample_globals
           (PyObject 1) "RMSprop"%string 1e-3%float
           (create_finetune_model 4 sample_globals empty_world).2);
    vm_compute; discriminate.
Defined.

(** On the sample framework the failure is the one of [fit] on a model that
    was never compiled. *)
Example unknown_solver_fails_in_fit :
  (train sample_training sample_globals (PyObject 1) "RMSprop"%string 1e-3%float
         (create_finetune_model 4 sample_globals empty_world).2).1
  = Raise RuntimeError.
Proof. reflexivity. Qed.

(** ** The data [train] fits on *)

Lemma train_event_on_prefixes g e : train_event g e → fit_on_prefixes g e.
Proof.
  destruct e as [| | |ref c]; cbn; try done.
  intros (-> & -> & -> & _). cbn. unfold upto.
  rewrite !length_take. repeat split; lia.
Qed.

Lemma train_fits_once training g model solver lr w :
  ∃ newlog,
    w_log (train training g model solver lr w).2 = w_log w ++ newlog
    ∧ length (fitted_models newlog) = if reaches_fit model solver w then 1 else 0.
Proof.
  destruct model as [|ref].
  { rewrite train_none. exists []. by rewrite app_nil_r. }
  cbn [reaches_fit].
  destruct (decide (lower solver = "adam"%string)) as [Hadam|Hadam].
  { rewrite train_adam by done. exists []. rewrite app_nil_r. split; [done|].
    rewrite (bool_decide_eq_true_2 _ Hadam). by rewrite andb_false_r. }
  rewrite (bool_decide_eq_false_2 _ Hadam), andb_true_r.
  destruct (decide (supported solver)) as [Hs|Hs].
  - destruct (w_models w !! ref) as [m|] eqn:Hm.
    + rewrite bool_decide_eq_true_2 by (by eexists).
      rewrite (train_sgd _ _ _ _ _ _ _ Hm Hs). unfold run_training.
      eexists [Compiled _ _; Fitted _ _]. split; [|reflexivity].
      destruct (training _); destruct w; cbn; by rewrite <- app_assoc.
    + rewrite bool_decide_eq_false_2 by (by intros [? ?]).
      unfold train. destruct Hs as [Hs|Hs].
      * eexists [Compiled _ _]. split; [|reflexivity].
        rewrite decide_True by done. rewrite !bind_run, method_run, bind_run.
        cbn [lift SGD].
        rewrite compile_run, bind_run. cbn [fit]. rewrite bind_run.
        unfold get_model. destruct w. cbn in *.
        rewrite list_lookup_alter_eq, Hm. cbn. reflexivity.
      * eexists [Compiled _ _]. split; [|reflexivity].
        rewrite decide_False by (rewrite Hs; done). rewrite decide_True by done.
        rewrite !bind_run, method_run, bind_run. cbn [lift SGD].
        rewrite compile_run, bind_run. cbn [fit]. rewrite bind_run.
        unfold get_model. destruct w. cbn in *.
        rewrite list_lookup_alter_eq, Hm. cbn. reflexivity.
  - assert (lower solver ≠ "sgd"%string ∧ lower solver ≠ "nesterov"%string) as [H1 H2].
    { split; intros H; apply Hs; [by left | by right]. }
    rewrite train_unsupported by done. rewrite bind_run.
    cbn [fit]. rewrite bind_run. unfold get_model.
    destruct (w_models w !! ref) as [m|] eqn:Hm; cbn [from_option].
    + rewrite bool_decide_eq_true_2 by (by eexists). rewrite bind_run. cbn.
      unfold run_training. eexists [Fitted _ _]. split; [|reflexivity].
      by destruct (training _).
    + rewrite bool_decide_eq_false_2 by (by intros [? ?]).
      exists []. by rewrite app_nil_r.
Qed.

(** C9.  Whatever the model, the solver and the state, a call of [train]
    runs [fit] at most once, and exactly once when the model is a model
    object and the solver is not ['adam']; every [fit] it runs is on the
    first 48 rows of the training tensors and targets (fewer when there are
    fewer) and validates on the first 20 rows of the validation tensors and
    targets, whatever the size of the loaded data. *)
Theorem train_fits_on_prefixes
    (training : FitCall → res HistoryDict) (g : Globals)
    (model : value) (solver : string) (lr : float) (w : World) :
  ∃ newlog,
    w_log (train training g model solver lr w).2 = w_log w ++ newlog
    ∧ Forall (fit_on_prefixes g) newlog
    ∧ length (fitted_models newlog) = if reaches_fit model solver w then 1 else 0.
Proof.
  destruct (train_logs training g model solver lr w) as (l1 & Hl1 & HQ).
  destruct (train_fits_once training g model solver lr w) as (l2 & Hl2 & Hn).
  assert (l1 = l2) as <- by (rewrite Hl1 in Hl2; by apply app_inv_head in Hl2).
  exists l1. split; [done|]. split; [|done].
  eapply Forall_impl; [exact HQ | apply train_event_on_prefixes].
Qed.

Example train_on_the_sample_data :
  fitted_models (w_log (train sample_training sample_globals (PyObject 1)
                              "SGD"%string 1e-3%float
                              (create_finetune_model 4 sample_globals empty_world).2).2)
  = [1].
Proof. reflexivity. Qed.

(** ** Which builder returns a model, and which one is called *)

Lemma create_scratch_model_run depth g w :
  create_scratch_model depth g w
  = (Ok PyNone,
     built depth g random_weights true
           (upd_log (.++ [Called "create_scratch_model"%string]) w)).
Proof.
  unfold create_scratch_model. rewrite !bind_run.
  change (emit _ w) with (Ok (), upd_log (.++ [Called "create_scratch_model"%string]) w).
  cbv beta iota. rewrite bind_run, scratch_locals_run. reflexivity.
Qed.

Lemma create_frozen_model_run depth g w :
  create_frozen_model depth g w
  = (Ok PyNone,
     built depth g imagenet_weights false
           (upd_log (.++ [Called "create_frozen_model"%string]) w)).
Proof.
  unfold create_frozen_model. rewrite !bind_run.
  change (emit _ w) with (Ok (), upd_log (.++ [Called "create_frozen_model"%string]) w).
  cbv beta iota. rewrite bind_run, frozen_locals_run. reflexivity.
Qed.

Lemma logs_create_finetune_model depth g :
  logs only_finetune (create_finetune_model depth g).
Proof.
  intros w. rewrite create_finetune_model_run.
  exists [Called "create_finetune_model"%string].
  split; [by destruct w | by repeat constructor].
Qed.

Lemma logs_print Q text : Q (Stdout text) → logs Q (print text).
Proof. apply logs_emit. Qed.

Lemma logs_sweep depth training float_format_f g solvers lrs :
  logs only_finetune (sweep depth training float_format_f g solvers lrs).
Proof.
  unfold sweep. apply logs_for_each. intros solver.
  apply logs_for_each. intros lr.
  apply logs_bind; [by apply logs_print | intros _].
  apply logs_bind; [apply logs_create_finetune_model | intros model].
  apply logs_bind; [|intros r; by apply logs_silent].
  eapply logs_weaken; [|apply train_logs]. by intros [].
Qed.

Lemma logs_notebook shuffle access depth training float_repr float_format_f address
    fs :
  logs only_finetune
       (notebook shuffle access depth training float_repr float_format_f address fs).
Proof.
  unfold notebook. apply logs_bind.
  - unfold cells_1_2.
    repeat (apply logs_bind; [apply logs_lift | intros [? ?]]).
    repeat (apply logs_bind; [by apply logs_print | intros _]).
    repeat (apply logs_bind; [apply logs_lift | intros ?]).
    apply logs_ret.
  - intros g. apply logs_bind.
    + unfold cell_6. apply logs_bind; [by apply logs_silent | intros _].
      apply logs_sweep.
    + intros _ w. unfold cell_7. by apply logs_print.
Qed.

Lemma cell_6_run depth training float_format_f g w :
  (∀ c, is_Some (optimizer (fc_model c)) → returns (training c)) →
  ∃ w', cell_6 depth training float_format_f g w = (Ok (), w')
        ∧ swept (upd_results (λ _, []) w) w' (grid solvers learning_rates).
Proof.
  intros Htraining. unfold cell_6. rewrite bind_run.
  change (results_reset w) with (Ok (), upd_results (λ _, []) w).
  cbv beta iota. apply sweep_run; [done|].
  apply Forall_cons. split; [by left | apply Forall_nil_2].
Qed.

(** Cell 6 empties [results] first: after it [results] has one triple per
    pair and no other. *)
Lemma cell_6_results depth training float_format_f g w :
  (∀ c, is_Some (optimizer (fc_model c)) → returns (training c)) →
  ∃ w', cell_6 depth training float_format_f g w = (Ok (), w')
        ∧ configuration <$> w_results w' = grid solvers learning_rates
        ∧ length (w_results w') = length solvers * length learning_rates.
Proof.
  intros Htraining.
  destruct (cell_6_run depth training float_format_f g w Htraining)
    as (w' & Hrun & (news & Hnews & Hconf & _) & _).
  exists w'. split; [exact Hrun|].
  destruct w; cbn in Hnews. rewrite Hnews. split; [exact Hconf|].
  by rewrite <- (length_fmap configuration), Hconf, length_grid.
Qed.

(** C2.  Of the three builders only [create_finetune_model] returns a model:
    it returns the reference of the model object it has just made, while
    [create_scratch_model] and [create_frozen_model] make their model object
    too and return [None].  In a run of the whole notebook, however it ends,
    no builder but [create_finetune_model] is called; and when fitting a
    compiled model returns, cell 6 calls it once per pair of solver and
    learning rate and calls no other function of the notebook. *)
Theorem only_finetune_returns_and_is_called
    (shuffle : nat → list nat) (access : Access) (depth : nat)
    (training : FitCall → res HistoryDict)
    (float_repr float_format_f : float → string) (address : nat → N)
    (fs : FileSystem) (g : Globals) (w : World) :
  (∀ c, is_Some (optimizer (fc_model c)) → returns (training c)) →
  (create_scratch_model depth g w).1 = Ok PyNone
  ∧ is_Some (w_models (create_scratch_model depth g w).2 !! S (length (w_models w)))
  ∧ (create_frozen_model depth g w).1 = Ok PyNone
  ∧ is_Some (w_models (create_frozen_model depth g w).2 !! S (length (w_models w)))
  ∧ (create_finetune_model depth g w).1 = Ok (PyObject (S (length (w_models w))))
  ∧ is_Some (w_models (create_finetune_model depth g w).2 !! S (length (w_models w)))
  ∧ (∃ newlog,
       w_log (notebook shuffle access depth training float_repr float_format_f address fs w).2
       = w_log w ++ newlog
       ∧ Forall only_finetune newlog)
  ∧ (∃ w' newlog,
       cell_6 depth training float_format_f g w = (Ok (), w')
       ∧ w_log w' = w_log w ++ newlog
       ∧ called newlog
         = replicate (length solvers * length learning_rates)
                     "create_finetune_model"%string).
Proof.
  intros Htraining.
  rewrite create_scratch_model_run, create_frozen_model_run, create_finetune_model_run.
  cbn [fst snd].
  pose proof (λ ws b l, built_model_lookup depth g ws b (upd_log l w)) as Hlookup.
  change (w_models (upd_log _ w)) with (w_models w) in Hlookup.
  rewrite !Hlookup.
  repeat (split; [done|]).
  split; [apply logs_notebook|].
  destruct (cell_6_run depth training float_format_f g w Htraining)
    as (w' & Hrun & _ & _ & _ & (newlog & Hlog & _ & Hcalled)).
  exists w', newlog. rewrite length_grid in Hcalled. by destruct w.
Qed.

Lemma only_finetune_returns_and_is_called_witness :
  (create_scratch_model keras_depth sample_globals empty_world).1 = Ok PyNone
  ∧ is_Some (w_models (create_scratch_model keras_depth sample_globals empty_world).2
             !! S (length (w_models empty_world)))
  ∧ (create_frozen_model keras_depth sample_globals empty_world).1 = Ok PyNone
  ∧ is_Some (w_models (create_frozen_model keras_depth sample_globals empty_world).2
             !! S (length (w_models empty_world)))
  ∧ (create_finetune_model keras_depth sample_globals empty_world).1
    = Ok (PyObject (S (length (w_models empty_world))))
  ∧ is_Some (w_models (create_finetune_model keras_depth sample_globals empty_world).2
             !! S (length (w_models empty_world)))
  ∧ (∃ newlog,
       w_log (notebook sample_shuffle sample_access keras_depth sample_training
                       sample_repr sample_format_f sample_address
                       (dataset 133 []) empty_world).2
       = w_log empty_world ++ newlog
       ∧ Forall only_finetune newlog)
  ∧ (∃ w' newlog,
       cell_6 keras_depth sample_training sample_format_f sample_globals empty_world
       = (Ok (), w')
       ∧ w_log w' = w_log empty_world ++ newlog
       ∧ called newlog
         = replicate (length solvers * length learning_rates)
                     "create_finetune_model"%string).
Proof.
  exact (only_finetune_returns_and_is_called sample_shuffle sample_access keras_depth
           sample_training sample_repr sample_format_f sample_address (dataset 133 [])
           sample_globals empty_world sample_training_returns).
Defined.

(** ** The loader and its targets *)

Lemma one_hot_is_one_hot (k label : nat) : label < k → is_one_hot k (one_hot k label).
Proof.
  intros Hl. unfold is_one_hot, one_hot. split.
  - by rewrite length_insert, length_replicate.
  - exists label. split.
    + apply list_lookup_insert_eq. by rewrite length_replicate.
    + intros j Hne Hj. rewrite list_lookup_insert_ne by done.
      by apply lookup_replicate_2.
Qed.

Lemma length_fancy_index {A B} (a : list A) (b : list B) (indices : list nat) :
  length a = length b →
  length (fancy_index a indices) = length (fancy_index b indices).
Proof.
  intros Hab. unfold fancy_index.
  induction indices as [|i indices IH]; [done|]. cbn [omap list_omap].
  destruct (a !! i) as [x|] eqn:Ha; destruct (b !! i) as [y|] eqn:Hb; cbn; try lia.
  - apply lookup_lt_Some in Ha. apply lookup_ge_None in Hb. lia.
  - apply lookup_lt_Some in Hb. apply lookup_ge_None in Ha. lia.
Qed.

(** The targets of the loader before the shuffle: as many as file names. *)
Lemma length_labels {A B} (docs : A → list B) (lab : nat → nat) (folders : list A) :
  length (mjoin (imap (λ i f, replicate (length (docs f)) (lab i)) folders))
  = length (mjoin (docs <$> folders)).
Proof.
  revert lab. induction folders as [|f folders IH]; intros lab; [done|].
  cbn. rewrite !length_app, length_replicate. f_equal. apply (IH (lab ∘ S)).
Qed.

Lemma to_categorical_run (y : list nat) (k : nat) :
  0 < k → Forall (λ label, label < k) y → to_categorical y k = Ok (one_hot k <$> y).
Proof.
  intros Hk Hy. unfold to_categorical. destruct k as [|k]; [lia|].
  by rewrite decide_True.
Qed.

Lemma to_categorical_raises (y : list nat) (k : nat) :
  0 < k → ¬ Forall (λ label, label < k) y → to_categorical y k = Raise IndexError.
Proof.
  intros Hk Hy. unfold to_categorical. destruct k as [|k]; [lia|].
  by rewrite decide_False.
Qed.

(** [load_files] and [load_dataset] in one equation each. *)
Lemma load_files_eq shuffle access fs path :
  load_files shuffle access fs path
  = if decide (can_load shuffle access fs path)
    then Ok {| b_filenames := listed shuffle fs path;
               b_target := listed_labels shuffle fs path;
               b_target_names := e_name <$> categories fs path |}
    else Raise OSError.
Proof.
  unfold load_files. destruct (fs !! path) as [listing|] eqn:Hfs.
  - assert (Hcats : merge_sort entry_le (filter (λ e, e_is_dir e = true) listing)
                    = categories fs path).
    { unfold categories, subdirectories. by rewrite Hfs. }
    rewrite Hcats.
    change ((if decide (Forall (λ folder,
                          listable access (join path (e_name folder)) = true)
                               (categories fs path))
             then if decide (Forall (λ file, readable access file = true)
                                    (listed shuffle fs path))
                  then Ok {| b_filenames := listed shuffle fs path;
                             b_target := listed_labels shuffle fs path;
                             b_target_names := e_name <$> categories fs path |}
                  else Raise OSError
             else Raise OSError)
            = (if decide (can_load shuffle access fs path)
               then Ok {| b_filenames := listed shuffle fs path;
                          b_target := listed_labels shuffle fs path;
                          b_target_names := e_name <$> categories fs path |}
               else Raise OSError)).
    destruct (decide (can_load shuffle access fs path)) as [(_ & Hl & Hr)|Hno].
    + by rewrite !decide_True.
    + repeat case_decide; try reflexivity. destruct Hno. by split; [eexists|].
  - rewrite decide_False; [done|]. intros [[listing Hsome] _]. congruence.
Qed.

Lemma load_dataset_eq shuffle access fs path :
  load_dataset shuffle access fs path
  = if decide (can_load shuffle access fs path)
    then if decide (Forall (λ label, label < 133) (listed_labels shuffle fs path))
         then Ok (listed shuffle fs path, one_hot 133 <$> listed_labels shuffle fs path)
         else Raise IndexError
    else Raise OSError.
Proof.
  unfold load_dataset. rewrite load_files_eq.
  destruct (decide (can_load shuffle access fs path)); [|done].
  cbn [mbind res_bind b_target b_filenames].
  destruct (decide (Forall (λ label, label < 133) (listed_labels shuffle fs path))).
  - by rewrite to_categorical_run by (done || lia).
  - by rewrite to_categorical_raises by (done || lia).
Qed.

Lemma length_all_labels fs path :
  length (all_labels fs path) = length (all_documents fs path).
Proof. apply (length_labels (documents path) (λ i, i)). Qed.

Lemma length_listed shuffle fs path :
  length (listed_labels shuffle fs path) = length (listed shuffle fs path).
Proof. apply length_fancy_index, length_all_labels. Qed.

(** What [load_dataset] has done when it returns. *)
Lemma load_dataset_inv shuffle access fs path files targets :
  load_dataset shuffle access fs path = Ok (files, targets) →
  can_load shuffle access fs path
  ∧ Forall (λ label, label < 133) (listed_labels shuffle fs path)
  ∧ files = listed shuffle fs path
  ∧ targets = one_hot 133 <$> listed_labels shuffle fs path.
Proof.
  rewrite load_dataset_eq. repeat case_decide; [|done..]. by intros [= <- <-].
Qed.

(** [load_dataset] raises nothing but what the loader and [to_categorical]
    raise. *)
Lemma load_dataset_exn shuffle access fs path e :
  load_dataset shuffle access fs path = Raise e → e = OSError ∨ e = IndexError.
Proof.
  rewrite load_dataset_eq. repeat case_decide; [done| |]; intros [= <-]; auto.
Qed.

(** Whenever [load_dataset] returns, every target is a one-hot row of width
    133 and there is one target per file name. *)
Lemma load_dataset_rows shuffle access fs path files targets :
  load_dataset shuffle access fs path = Ok (files, targets) →
  Forall (is_one_hot 133) targets ∧ length targets = length files.
Proof.
  intros (_ & Hy & -> & ->)%load_dataset_inv. split.
  - apply Forall_fmap. eapply Forall_impl; [exact Hy|].
    intros label Hl. by apply one_hot_is_one_hot.
  - by rewrite length_fmap, length_listed.
Qed.

(** With 134 class directories that hold an image each, a label is 133 and
    [to_categorical] raises. *)
Example many_classes_raise :
  load_dataset sample_shuffle sample_access (dataset 134 []) "dogImages/train"
  = Raise IndexError.
Proof. vm_compute. reflexivity. Qed.

(** C4.  For every path, every file system and every shuffle, whatever the
    number of sub-directories of the path: the targets [load_dataset]
    returns are rows of length exactly 133 with a single entry equal to 1
    and all others 0, one row per file name it returns. *)
Theorem load_dataset_targets_one_hot
    (shuffle : nat → list nat) (access : Access) (fs : FileSystem) (path : string)
    (files : list string) (targets : list (list nat)) :
  load_dataset shuffle access fs path = Ok (files, targets) →
  Forall (is_one_hot 133) targets ∧ length targets = length files.
Proof. apply load_dataset_rows. Qed.

Lemma load_dataset_targets_one_hot_witness :
  ∃ files targets,
    load_dataset sample_shuffle sample_access (dataset 5 []) "dogImages/train"
    = Ok (files, targets)
    ∧ length targets = 5
    ∧ Forall (is_one_hot 133) targets
    ∧ length targets = length files.
Proof.
  eexists _, _. split; [vm_compute; reflexivity|]. split; [reflexivity|].
  apply (load_dataset_targets_one_hot sample_shuffle sample_access (dataset 5 [])
           "dogImages/train").
  vm_compute. reflexivity.
Defined.

(** Five classes give rows of width 133 all the same. *)
Example five_classes_width_133 :
  match load_dataset sample_shuffle sample_access (dataset 5 []) "dogImages/train" with
  | Ok (files, targets) => length <$> targets
  | Raise _ => []
  end = [133; 133; 133; 133; 133].
Proof. vm_compute. reflexivity. Qed.

(** ** The width of the head and the width of the targets *)

(** What cells 1 and 2 have bound when they return. *)
Lemma cells_1_2_inv shuffle access fs w g w' :
  cells_1_2 shuffle access fs w = (Ok g, w') →
  load_dataset shuffle access fs "dogImages/train" = Ok (train_files g, train_targets g)
  ∧ load_dataset shuffle access fs "dogImages/valid" = Ok (valid_files g, valid_targets g)
  ∧ load_dataset shuffle access fs "dogImages/test" = Ok (test_files g, test_targets g)
  ∧ dog_names g = slice 20 1 <$> sorted (glob_dirs fs "dogImages/train")
  ∧ num_classes g = length (dog_names g)
  ∧ astype_float32_div_255 <$> paths_to_tensor access (train_files g) = Ok (train_tensors g)
  ∧ astype_float32_div_255 <$> paths_to_tensor access (valid_files g) = Ok (valid_tensors g)
  ∧ astype_float32_div_255 <$> paths_to_tensor access (test_files g) = Ok (test_tensors g).
Proof.
  unfold cells_1_2. rewrite bind_run. unfold lift at 1.
  destruct (load_dataset shuffle access fs "dogImages/train") as [[f1 t1]|] eqn:H1; [|done].
  rewrite bind_run. unfold lift at 1.
  destruct (load_dataset shuffle access fs "dogImages/valid") as [[f2 t2]|] eqn:H2; [|done].
  rewrite bind_run. unfold lift at 1.
  destruct (load_dataset shuffle access fs "dogImages/test") as [[f3 t3]|] eqn:H3; [|done].
  cbv zeta. rewrite !bind_run. unfold print, emit. cbv beta iota.
  rewrite !bind_run. unfold lift.
  destruct (astype_float32_div_255 <$> paths_to_tensor access f1) as [a1|] eqn:Ha1; [|done].
  rewrite bind_run.
  destruct (astype_float32_div_255 <$> paths_to_tensor access f2) as [a2|] eqn:Ha2; [|done].
  rewrite bind_run.
  destruct (astype_float32_div_255 <$> paths_to_tensor access f3) as [a3|] eqn:Ha3; [|done].
  intros [= <- <-]. cbn. done.
Qed.

Lemma length_glob_dirs fs path :
  length (glob_dirs fs path) = length (visible_subdirectories fs path).
Proof.
  unfold glob_dirs, visible_subdirectories, subdirectories.
  rewrite length_fmap, list_filter_filter. f_equal.
  apply list_filter_iff. intros e. tauto.
Qed.

Lemma num_classes_is_glob_count shuffle access fs w g w' :
  cells_1_2 shuffle access fs w = (Ok g, w') →
  num_classes g = length (visible_subdirectories fs "dogImages/train").
Proof.
  intros (_ & _ & _ & Hnames & -> & _)%cells_1_2_inv.
  rewrite Hnames, length_fmap, <- length_glob_dirs.
  apply Permutation_length, merge_sort_Permutation.
Qed.

Lemma one_hot_rows_width (rows : list (list nat)) :
  Forall (is_one_hot 133) rows → Forall (λ row, length row = 133) rows.
Proof. intros H. eapply Forall_impl; [exact H|]. by intros row [Hlen _]. Qed.

Lemma paths_to_tensor_nonempty access (files : list string) (a : Array) :
  astype_float32_div_255 <$> paths_to_tensor access files = Ok a → files ≠ [].
Proof. by intros H ->. Qed.

(** C7, as the description has it, fails: with 132 class directories and a
    hidden directory the training directory has 133 sub-directories, the
    loader gives targets of width 133, and [num_classes] is 132. *)
Lemma hidden_directory_is_not_counted :
  ¬ widths_match_iff_133_subdirectories sample_shuffle sample_access
      (dataset 132 [checkpoints]).
Proof.
  intros Hclaim.
  assert (∃ g w', cells_1_2 sample_shuffle sample_access (dataset 132 [checkpoints]) empty_world
                  = (Ok g, w')) as (g & w' & Hrun).
  { vm_compute. eexists _, _. reflexivity. }
  destruct (Hclaim g w' Hrun) as [Hcount _].
  rewrite (num_classes_is_glob_count _ _ _ _ _ _ Hrun) in Hcount.
  vm_compute in Hcount. discriminate Hcount.
Qed.

(** C7, amended.  When cells 1 and 2 return, [num_classes] is the number of
    sub-directories of [dogImages/train] whose name does not start with a
    dot; the model of each of the three builders has an output of that
    width; every target row has width 133, and there are target rows; and
    the output width is the width of the target rows if and only if there
    are 133 such sub-directories. *)
Theorem head_width_and_target_width
    (shuffle : nat → list nat) (access : Access) (depth : nat) (fs : FileSystem)
    (w : World) (g : Globals) (w' : World) :
  cells_1_2 shuffle access fs w = (Ok g, w') →
  num_classes g = length (visible_subdirectories fs "dogImages/train")
  ∧ (∀ w0,
       (output_shape ∘ fst) <$> scratch_variant depth g w0 = Some [num_classes g]
       ∧ (output_shape ∘ fst) <$> finetune_variant depth g w0 = Some [num_classes g]
       ∧ (output_shape ∘ fst) <$> frozen_variant depth g w0 = Some [num_classes g])
  ∧ train_targets g ≠ []
  ∧ Forall (λ row, length row = 133)
           (train_targets g ++ valid_targets g ++ test_targets g)
  ∧ (Forall (λ row, [num_classes g] = [length row])
            (train_targets g ++ valid_targets g ++ test_targets g)
     ↔ length (visible_subdirectories fs "dogImages/train") = 133).
Proof.
  intros Hrun.
  pose proof (num_classes_is_glob_count _ _ _ _ _ _ Hrun) as Hcount.
  apply cells_1_2_inv in Hrun as (Ht & Hv & Hs & _ & _ & Htensors & _).
  apply load_dataset_rows in Ht as [Hrows1 Hlen1].
  apply load_dataset_rows in Hv as [Hrows2 _].
  apply load_dataset_rows in Hs as [Hrows3 _].
  apply paths_to_tensor_nonempty in Htensors.
  assert (Hsome : train_targets g ≠ []).
  { intros Hnil. rewrite Hnil in Hlen1. by destruct (train_files g). }
  assert (Hwidth : Forall (λ row, length row = 133)
                          (train_targets g ++ valid_targets g ++ test_targets g)).
  { rewrite !Forall_app. auto using one_hot_rows_width. }
  split; [exact Hcount|].
  split.
  { intros w0.
    by rewrite scratch_variant_is, finetune_variant_is, frozen_variant_is. }
  split; [exact Hsome|]. split; [exact Hwidth|].
  rewrite <- Hcount. split.
  - intros Hmatch. destruct (train_targets g) as [|row rows]; [done|].
    apply Forall_cons in Hmatch as [[= ->] _].
    by apply Forall_cons in Hwidth as [-> _].
  - intros ->. eapply Forall_impl; [exact Hwidth|]. by intros row ->.
Qed.

Lemma sample_cells_1_2_return :
  cells_1_2 sample_shuffle sample_access (dataset 133 []) empty_world
  = (Ok loaded_globals, sample_cells_1_2.2).
Proof. vm_compute. reflexivity. Defined.

Lemma head_width_and_target_width_witness :
  num_classes loaded_globals
  = length (visible_subdirectories (dataset 133 []) "dogImages/train")
  ∧ (∀ w0,
       (output_shape ∘ fst) <$> scratch_variant keras_depth loaded_globals w0
       = Some [num_classes loaded_globals]
       ∧ (output_shape ∘ fst) <$> finetune_variant keras_depth loaded_globals w0
         = Some [num_classes loaded_globals]
       ∧ (output_shape ∘ fst) <$> frozen_variant keras_depth loaded_globals w0
         = Some [num_classes loaded_globals])
  ∧ train_targets loaded_globals ≠ []
  ∧ Forall (λ row, length row = 133)
           (train_targets loaded_globals ++ valid_targets loaded_globals
            ++ test_targets loaded_globals)
  ∧ (Forall (λ row, [num_classes loaded_globals] = [length row])
            (train_targets loaded_globals ++ valid_targets loaded_globals
             ++ test_targets loaded_globals)
     ↔ length (visible_subdirectories (dataset 133 []) "dogImages/train") = 133).
Proof.
  exact (head_width_and_target_width sample_shuffle sample_access keras_depth (dataset 133 [])
           empty_world loaded_globals sample_cells_1_2.2 sample_cells_1_2_return).
Defined.

(** With five class directories the head has width 5 and the targets have
    width 133. *)
Example five_classes_mismatch :
  match (cells_1_2 sample_shuffle sample_access (dataset 5 []) empty_world).1 with
  | Ok g => Some (num_classes g, length <$> take 1 (train_targets g))
  | Raise _ => None
  end = Some (5, [133]).
Proof. vm_compute. reflexivity. Qed.

(** ** The last cell *)

Lemma result_repr_without_metrics float_repr address r :
  result_repr float_repr address (without_metrics r) = result_repr float_repr address r.
Proof. reflexivity. Qed.

Lemma results_repr_without_metrics float_repr address results :
  results_repr float_repr address (without_metrics <$> results)
  = results_repr float_repr address results.
Proof.
  unfold results_repr. rewrite <- list_fmap_compose. reflexivity.
Qed.

Example recorded_output :
  results_repr sample_repr sample_address recorded_results
  = ("[('sgd', 0.0005, <keras.callbacks.History object at 0x7f5d57a4b748>), "
     +:+ "('sgd', 0.001, <keras.callbacks.History object at 0x7f5d393ec7f0>)]")%string.
Proof. vm_compute. reflexivity. Qed.

(** C8, as the description has it, fails: the last cell prints the same text
    for the recorded results and for the results with the validation losses
    exchanged, and the configuration with the lowest validation loss is not
    the same. *)
Lemma print_does_not_compare_validation_loss :
  ¬ print_settles_lowest_validation_loss sample_repr sample_address.
Proof.
  intros Hclaim.
  specialize (Hclaim recorded_results exchanged_results eq_refl).
  apply (f_equal (λ best, match best with
                          | Some (_, lr) => PrimFloat.eqb lr 5e-4%float
                          | None => false
                          end)) in Hclaim.
  vm_compute in Hclaim. discriminate Hclaim.
Qed.

(** C8, amended.  The last cell prints the list [results], each entry as the
    solver, the learning rate and the default representation of the
    [History] object, and changes nothing else; the text is the one it would
    print without any recorded metric, so no validation loss is read or
    compared. *)
Theorem last_cell_prints_results
    (float_repr : float → string) (address : nat → N) (w : World) :
  cell_7 float_repr address w
  = (Ok (), upd_log (.++ [Stdout (results_repr float_repr address (w_results w))]) w)
  ∧ results_repr float_repr address (w_results w)
    = results_repr float_repr address (without_metrics <$> w_results w).
Proof.
  split; [reflexivity|]. by rewrite results_repr_without_metrics.
Qed.

(** * Further properties of the notebook's code *)

(** ** [load_dataset]: outcome, alignment and completeness *)

Lemma fancy_index_Forall2 {A B} (R : A → B → Prop) (a : list A) (b : list B)
    (indices : list nat) :
  Forall2 R a b → Forall2 R (fancy_index a indices) (fancy_index b indices).
Proof.
  intros Hab. unfold fancy_index.
  induction indices as [|i indices IH]; [constructor|]. cbn [omap list_omap].
  destruct (a !! i) as [x|] eqn:Ha.
  - destruct (Forall2_lookup_l _ _ _ _ _ Hab Ha) as (y & -> & Hxy). by constructor.
  - destruct (b !! i) as [y|] eqn:Hb; [|done].
    destruct (Forall2_lookup_r _ _ _ _ _ Hab Hb) as (x & Hx & _). congruence.
Qed.

Lemma fancy_index_all {A} (a : list A) : fancy_index a (seq 0 (length a)) = a.
Proof. apply (omap_lookup_new [] a). Qed.

Lemma fancy_index_Permutation {A} (a : list A) (indices : list nat) :
  indices ≡ₚ seq 0 (length a) → fancy_index a indices ≡ₚ a.
Proof.
  intros Hperm. rewrite <- (fancy_index_all a) at 2.
  unfold fancy_index. by rewrite Hperm.
Qed.

(** Before the shuffle the [i]-th file name and the [i]-th target belong
    together. *)
Lemma documents_in_category fs path (rest : list Entry) (first : nat) :
  (∀ i folder, rest !! i = Some folder →
               categories fs path !! (first + i) = Some folder) →
  Forall2 (in_category fs path)
          (mjoin (documents path <$> rest))
          (mjoin (imap (λ label folder,
                          replicate (length (documents path folder)) (first + label))
                       rest)).
Proof.
  revert first. induction rest as [|folder rest IH]; intros first Hrest; [constructor|].
  cbn [fmap list_fmap mjoin list_join]. rewrite imap_cons. cbn [mjoin list_join].
  apply Forall2_app.
  - apply Forall2_replicate_r; [done|]. apply Forall_forall. intros file Hfile.
    unfold documents in Hfile. apply list_elem_of_fmap in Hfile as (doc & -> & Hdoc).
    exists folder, doc. split; [apply (Hrest 0 folder eq_refl)|]. split; [|done].
    unfold sorted in Hdoc. by rewrite merge_sort_Permutation in Hdoc.
  - rewrite (imap_ext _ (λ label folder',
               replicate (length (documents path folder')) (S first + label)))
      by (intros; cbn; f_equal; lia).
    apply IH. intros i folder' Hi.
    replace (S first + i) with (first + S i) by lia. by apply Hrest.
Qed.

Lemma length_documents path folder :
  length (documents path folder) = length (e_files folder).
Proof.
  unfold documents, sorted. rewrite length_fmap.
  apply Permutation_length, merge_sort_Permutation.
Qed.

(** The labels the loader gives before the shuffle are those of the
    categories that hold an entry. *)
Lemma label_in_target path (cats : list Entry) (label : nat) :
  label ∈ mjoin (imap (λ l folder, replicate (length (documents path folder)) l) cats)
  ↔ ∃ folder, cats !! label = Some folder ∧ e_files folder ≠ [].
Proof.
  rewrite list_elem_of_join. split.
  - intros (l & Hlabel & Hl). apply elem_of_lookup_imap in Hl as (i & folder & -> & Hi).
    apply elem_of_replicate in Hlabel as [-> Hlen]. exists folder. split; [done|].
    intros Hnil. apply Hlen. by rewrite length_documents, Hnil.
  - intros (folder & Hfolder & Hfiles).
    exists (replicate (length (documents path folder)) label). split.
    + apply elem_of_replicate. split; [done|]. rewrite length_documents.
      by destruct (e_files folder).
    + apply elem_of_lookup_imap. by exists label, folder.
Qed.

Lemma sample_shuffle_is_shuffle : is_shuffle sample_shuffle.
Proof. intros n. apply reverse_Permutation. Defined.

Lemma listed_Permutation shuffle fs path :
  is_shuffle shuffle → listed shuffle fs path ≡ₚ all_documents fs path.
Proof. intros Hshuffle. apply fancy_index_Permutation, Hshuffle. Qed.

Lemma listed_labels_Permutation shuffle fs path :
  is_shuffle shuffle → listed_labels shuffle fs path ≡ₚ all_labels fs path.
Proof.
  intros Hshuffle. apply fancy_index_Permutation.
  rewrite length_all_labels. apply Hshuffle.
Qed.

Lemma not_Forall_true {A} (f : A → bool) (l : list A) :
  ¬ Forall (λ x, f x = true) l → ∃ x, x ∈ l ∧ f x = false.
Proof.
  intros (x & Hx & Hf)%not_Forall_Exists%Exists_exists; [|apply _].
  exists x. split; [done|]. by apply not_true_is_false.
Qed.

(** X1.  [load_dataset] raises [OSError] exactly when the loader does not
    get through its listing and reading (the path is not a directory that
    can be listed, one of its sub-directories cannot be listed, or a
    document the loader lists cannot be read), and [IndexError] exactly when
    the loader gets through and has given some file a label of 133 or more;
    it raises nothing else, and when it returns, the file names are those the
    loader lists and the targets are the one-hot rows of its labels, all
    below 133. *)
Theorem load_dataset_outcome
    (shuffle : nat → list nat) (access : Access) (fs : FileSystem) (path : string) :
  match load_dataset shuffle access fs path with
  | Ok (files, targets) =>
      can_load shuffle access fs path
      ∧ Forall (λ label, label < 133) (listed_labels shuffle fs path)
      ∧ files = listed shuffle fs path
      ∧ targets = one_hot 133 <$> listed_labels shuffle fs path
  | Raise e =>
      (e = OSError
       ∧ (fs !! path = None
          ∨ (∃ folder, folder ∈ categories fs path
                       ∧ listable access (join path (e_name folder)) = false)
          ∨ (∃ file, file ∈ listed shuffle fs path ∧ readable access file = false)))
      ∨ (e = IndexError
         ∧ can_load shuffle access fs path
         ∧ ∃ label, label ∈ listed_labels shuffle fs path ∧ 133 ≤ label)
  end.
Proof.
  rewrite load_dataset_eq.
  destruct (decide (can_load shuffle access fs path)) as [Hload|Hload].
  - destruct (decide (Forall (λ label, label < 133) (listed_labels shuffle fs path)))
      as [Hy|Hy]; [done|].
    right. split; [done|]. split; [done|].
    apply not_Forall_Exists in Hy; [|apply _].
    apply Exists_exists in Hy as (label & Hin & Hlabel). exists label.
    split; [done|]. cbn in Hlabel. lia.
  - left. split; [done|].
    destruct (fs !! path) as [listing|] eqn:Hfs; [|by left]. right.
    destruct (decide (Forall (λ folder,
                 listable access (join path (e_name folder)) = true)
               (categories fs path))) as [Hl|Hl];
      [|left; by apply (not_Forall_true (λ folder,
                          listable access (join path (e_name folder))))].
    right. apply (not_Forall_true (readable access)). intros Hr.
    apply Hload. unfold can_load. rewrite Hfs. by split; [eexists|].
Qed.

(** X2.  Whatever the shuffle, the file names and the targets [load_dataset]
    returns stay aligned: the [i]-th target is the one-hot row of a label
    below 133, and the [i]-th file name is the path of an entry of the
    sub-directory that has this label, i.e. this position among the
    sub-directories of the path sorted by name. *)
Theorem load_dataset_aligned
    (shuffle : nat → list nat) (access : Access) (fs : FileSystem) (path : string)
    (files : list string) (targets : list (list nat)) :
  load_dataset shuffle access fs path = Ok (files, targets) →
  Forall2 (λ file row, ∃ label, row = one_hot 133 label ∧ label < 133
                                ∧ in_category fs path file label)
          files targets.
Proof.
  intros (_ & Hlabels & -> & ->)%load_dataset_inv.
  apply Forall2_fmap_r.
  assert (Hpairs : Forall2 (in_category fs path)
                           (listed shuffle fs path) (listed_labels shuffle fs path)).
  { apply fancy_index_Forall2.
    apply (documents_in_category fs path (categories fs path) 0). by intros i folder. }
  revert Hlabels Hpairs.
  generalize (listed_labels shuffle fs path). generalize (listed shuffle fs path).
  intros fl ll Hlabels Hpairs.
  induction Hpairs as [|file label fl ll Hin _ IH]; [constructor|].
  apply Forall_cons in Hlabels as [Hlabel Hlabels].
  constructor; [by exists label | by apply IH].
Qed.

Lemma load_dataset_aligned_witness :
  ∃ files targets,
    load_dataset sample_shuffle sample_access (dataset 5 []) "dogImages/train"
    = Ok (files, targets)
    ∧ Forall2 (λ file row, ∃ label, row = one_hot 133 label ∧ label < 133
                 ∧ in_category (dataset 5 []) "dogImages/train" file label)
              files targets.
Proof.
  eexists _, _. split; [vm_compute; reflexivity|].
  apply (load_dataset_aligned sample_shuffle sample_access (dataset 5 [])
           "dogImages/train").
  vm_compute. reflexivity.
Defined.

(** X3.  When the shuffle gives each index once, [load_dataset] loses and
    repeats nothing: the file names it returns are the documents of all the
    sub-directories of the path, each as often as it is there, and there is
    one target for each. *)
Theorem load_dataset_complete
    (shuffle : nat → list nat) (access : Access) (fs : FileSystem) (path : string)
    (files : list string) (targets : list (list nat)) :
  is_shuffle shuffle →
  load_dataset shuffle access fs path = Ok (files, targets) →
  files ≡ₚ all_documents fs path
  ∧ length targets = length (all_documents fs path).
Proof.
  intros Hshuffle (_ & _ & -> & ->)%load_dataset_inv. split.
  - by apply listed_Permutation.
  - rewrite length_fmap, length_listed.
    by apply Permutation_length, listed_Permutation.
Qed.

Lemma load_dataset_complete_witness :
  ∃ files targets,
    load_dataset sample_shuffle sample_access (dataset 5 []) "dogImages/train"
    = Ok (files, targets)
    ∧ files ≡ₚ all_documents (dataset 5 []) "dogImages/train"
    ∧ length targets = length (all_documents (dataset 5 []) "dogImages/train").
Proof.
  eexists _, _. split; [vm_compute; reflexivity|].
  apply (load_dataset_complete sample_shuffle sample_access (dataset 5 [])
           "dogImages/train");
    [exact sample_shuffle_is_shuffle | vm_compute; reflexivity].
Defined.

(** X4.  When the shuffle gives each index once, [load_dataset] returns if
    and only if the path is a directory that can be listed, each of its
    sub-directories can be listed, each of their entries can be read as a
    file, and every sub-directory from the 134th on, in the order of the
    names, is empty. *)
Theorem load_dataset_returns_iff
    (shuffle : nat → list nat) (access : Access) (fs : FileSystem) (path : string) :
  is_shuffle shuffle →
  returns (load_dataset shuffle access fs path)
  ↔ is_Some (fs !! path)
    ∧ (∀ folder, folder ∈ categories fs path →
                 listable access (join path (e_name folder)) = true)
    ∧ (∀ file, file ∈ all_documents fs path → readable access file = true)
    ∧ (∀ label folder, categories fs path !! label = Some folder → 133 ≤ label →
                       e_files folder = []).
Proof.
  intros Hshuffle.
  assert (Hlabels : Forall (λ label, label < 133) (listed_labels shuffle fs path)
                    ↔ ∀ label folder, categories fs path !! label = Some folder →
                                      133 ≤ label → e_files folder = []).
  { rewrite (listed_labels_Permutation _ _ _ Hshuffle), Forall_forall.
    unfold all_labels. split.
    - intros Hall label folder Hfolder Hlabel.
      destruct (e_files folder) as [|doc docs] eqn:Hfiles; [done|].
      assert (label ∈ mjoin (imap (λ l folder',
                 replicate (length (documents path folder')) l) (categories fs path)))
        as Hin%Hall; [|lia].
      apply label_in_target. exists folder. split; [done|]. by rewrite Hfiles.
    - intros Hall label (folder & Hfolder & Hfiles)%label_in_target.
      destruct (decide (label < 133)); [done|].
      destruct Hfiles. apply (Hall label); [done | lia]. }
  assert (Hload : can_load shuffle access fs path
                  ↔ is_Some (fs !! path)
                    ∧ (∀ folder, folder ∈ categories fs path →
                                 listable access (join path (e_name folder)) = true)
                    ∧ (∀ file, file ∈ all_documents fs path →
                               readable access file = true)).
  { unfold can_load.
    by rewrite (listed_Permutation _ _ _ Hshuffle), !Forall_forall. }
  rewrite load_dataset_eq. split.
  - intros [r Hr]. repeat case_decide; try done.
    apply Hload in H as (? & ? & ?). by rewrite <- Hlabels.
  - intros (Hsome & Hl & Hr & Hy).
    rewrite decide_True by (apply Hload; done).
    rewrite decide_True by (by apply Hlabels). by eexists.
Qed.

Lemma load_dataset_returns_iff_witness :
  returns (load_dataset sample_shuffle sample_access (dataset 5 []) "dogImages/train")
  ↔ is_Some (dataset 5 [] !! "dogImages/train"%string)
    ∧ (∀ folder, folder ∈ categories (dataset 5 []) "dogImages/train" →
                 listable sample_access (join "dogImages/train" (e_name folder)) = true)
    ∧ (∀ file, file ∈ all_documents (dataset 5 []) "dogImages/train" →
               readable sample_access file = true)
    ∧ (∀ label folder,
         categories (dataset 5 []) "dogImages/train" !! label = Some folder →
         133 ≤ label → e_files folder = []).
Proof.
  apply (load_dataset_returns_iff sample_shuffle sample_access (dataset 5 [])
           "dogImages/train").
  exact sample_shuffle_is_shuffle.
Defined.

(** ** Tensors and the globals of cells 1 and 2 *)

Lemma mjoin_singletons {A} (l : list A) : mjoin ((λ x, [x]) <$> l) = l.
Proof. induction l as [|x l IH]; [done|]. csimpl. by f_equal. Qed.

Lemma path_to_tensor_run access (img_path : string) :
  load_img_error access img_path = None →
  path_to_tensor access img_path
  = Ok {| arr_rows := [img_path]; arr_row_shape := [224; 224; 3]; arr_scaled := false |}.
Proof. intros Himg. unfold path_to_tensor. by rewrite Himg. Qed.

Lemma path_to_tensor_raises access (img_path : string) e :
  load_img_error access img_path = Some e → path_to_tensor access img_path = Raise e.
Proof. intros Himg. unfold path_to_tensor. by rewrite Himg. Qed.

(** [paths_to_tensor] on images, and on a list with a path that is none. *)
Lemma mapM_path_to_tensor access (img_paths : list string) :
  Forall (λ img_path, load_img_error access img_path = None) img_paths →
  mapM (path_to_tensor access) img_paths
  = Ok ((λ img_path, {| arr_rows := [img_path]; arr_row_shape := [224; 224; 3];
                        arr_scaled := false |}) <$> img_paths).
Proof.
  induction 1 as [|img_path img_paths Himg _ IH]; [done|].
  cbn [mapM]. by rewrite IH, path_to_tensor_run.
Qed.

Lemma paths_to_tensor_run access (img_path : string) (img_paths : list string) :
  Forall (λ p, load_img_error access p = None) (img_path :: img_paths) →
  paths_to_tensor access (img_path :: img_paths)
  = Ok {| arr_rows := img_path :: img_paths; arr_row_shape := [224; 224; 3];
          arr_scaled := false |}.
Proof.
  intros Hall. unfold paths_to_tensor. rewrite mapM_path_to_tensor by done.
  pose proof (mjoin_singletons (img_path :: img_paths)) as Hrows.
  cbn [mbind res_bind]. unfold vstack. rewrite fmap_cons.
  rewrite <- (fmap_cons (λ p, mkArray [p] [224; 224; 3] false)), <- list_fmap_compose.
  change (arr_rows ∘ (λ p, mkArray [p] [224; 224; 3] false)) with (λ x : string, [x]).
  by rewrite Hrows.
Qed.

Lemma paths_to_tensor_raises access (before after : list string) (img_path : string) e :
  Forall (λ p, load_img_error access p = None) before →
  load_img_error access img_path = Some e →
  paths_to_tensor access (before ++ img_path :: after) = Raise e.
Proof.
  intros Hbefore Himg. unfold paths_to_tensor.
  assert (mapM (path_to_tensor access) (before ++ img_path :: after) = Raise e) as ->;
    [|done].
  induction Hbefore as [|p before Hp _ IH].
  - cbn [app mapM]. by rewrite (path_to_tensor_raises _ _ _ Himg).
  - cbn [app mapM]. by rewrite IH, path_to_tensor_run.
Qed.

(** The first path of a list on which [image.load_img] raises. *)
Lemma first_load_img_error access (img_paths : list string) :
  ¬ Forall (λ p, load_img_error access p = None) img_paths →
  ∃ before img_path after e,
    img_paths = before ++ img_path :: after
    ∧ Forall (λ p, load_img_error access p = None) before
    ∧ load_img_error access img_path = Some e.
Proof.
  induction img_paths as [|p img_paths IH]; intros Hall.
  - destruct Hall. constructor.
  - destruct (load_img_error access p) as [e|] eqn:Hp.
    + by exists [], p, img_paths, e.
    + destruct IH as (before & img_path & after & e & -> & Hbefore & Himg).
      { intros Hrest. apply Hall. by constructor. }
      exists (p :: before), img_path, after, e. split; [done|].
      split; [by constructor | done].
Qed.

(** X5.  [paths_to_tensor] raises what [image.load_img] raises on the first
    path on which it raises; when it raises on none, [paths_to_tensor]
    raises [ValueError] on the empty list of paths, and otherwise returns one
    224 x 224 x 3 row per path, in the order of the paths, not yet
    scaled. *)
Theorem paths_to_tensor_rows (access : Access) (img_paths : list string) :
  match paths_to_tensor access img_paths with
  | Ok a => img_paths ≠ []
            ∧ Forall (λ img_path, load_img_error access img_path = None) img_paths
            ∧ arr_rows a = img_paths
            ∧ shape a = [length img_paths; 224; 224; 3]
            ∧ arr_scaled a = false
  | Raise e => (e = ValueError ∧ img_paths = [])
               ∨ (∃ before img_path after,
                    img_paths = before ++ img_path :: after
                    ∧ Forall (λ p, load_img_error access p = None) before
                    ∧ load_img_error access img_path = Some e)
  end.
Proof.
  destruct (decide (Forall (λ p, load_img_error access p = None) img_paths))
    as [Hall|Hall].
  - destruct img_paths as [|img_path img_paths]; [by left|].
    by rewrite paths_to_tensor_run.
  - destruct (first_load_img_error access img_paths Hall)
      as (before & img_path & after & e & -> & Hbefore & Himg).
    rewrite (paths_to_tensor_raises access before after img_path e) by done.
    right. by exists before, img_path, after.
Qed.

(** Cells 1 and 2 once the three directories are loaded: the statistics are
    printed, then the tensors are made. *)
Lemma cells_1_2_loaded shuffle access fs w tf tt vf vt sf st :
  load_dataset shuffle access fs "dogImages/train" = Ok (tf, tt) →
  load_dataset shuffle access fs "dogImages/valid" = Ok (vf, vt) →
  load_dataset shuffle access fs "dogImages/test" = Ok (sf, st) →
  let names := slice 20 1 <$> sorted (glob_dirs fs "dogImages/train") in
  cells_1_2 shuffle access fs w
  = ((train_tensors ← astype_float32_div_255 <$> paths_to_tensor access tf;
      valid_tensors ← astype_float32_div_255 <$> paths_to_tensor access vf;
      test_tensors ← astype_float32_div_255 <$> paths_to_tensor access sf;
      Ok {| train_files := tf; train_targets := tt;
            valid_files := vf; valid_targets := vt;
            test_files := sf; test_targets := st;
            dog_names := names; num_classes := length names;
            train_tensors := train_tensors; valid_tensors := valid_tensors;
            test_tensors := test_tensors |}),
     upd_log (.++ (Stdout <$> statistics names tf vf sf)) w).
Proof.
  intros Ht Hv Hs names. unfold cells_1_2.
  rewrite bind_run. unfold lift at 1. rewrite Ht. cbv beta iota.
  rewrite bind_run. unfold lift at 1. rewrite Hv. cbv beta iota.
  rewrite bind_run. unfold lift at 1. rewrite Hs. cbv beta iota zeta.
  fold names. unfold print, emit.
  do 5 (rewrite bind_run; cbv beta iota).
  assert (Hw : upd_log (.++ [Stdout ("There are " +:+ pretty (length sf)
                                     +:+ " test dog images.")])
                 (upd_log (.++ [Stdout ("There are " +:+ pretty (length vf)
                                        +:+ " validation dog images.")])
                    (upd_log (.++ [Stdout ("There are " +:+ pretty (length tf)
                                           +:+ " training dog images.")])
                       (upd_log (.++ [Stdout ("There are "
                                        +:+ pretty (length (tf ++ vf ++ sf))
                                        +:+ " total dog images."
                                        +:+ String (ascii_of_nat 10) EmptyString)])
                          (upd_log (.++ [Stdout ("There are " +:+ pretty (length names)
                                                 +:+ " total dog categories.")]) w))))
               = upd_log (.++ (Stdout <$> statistics names tf vf sf)) w).
  { destruct w. unfold upd_log, statistics. cbn -[pretty String.append].
    by rewrite <- !app_assoc. }
  rewrite Hw. rewrite !bind_run. unfold lift.
  destruct (astype_float32_div_255 <$> paths_to_tensor access tf) as [a1|]; [|done].
  cbn [mbind res_bind]. rewrite bind_run.
  destruct (astype_float32_div_255 <$> paths_to_tensor access vf) as [a2|]; [|done].
  cbn [mbind res_bind]. rewrite bind_run.
  destruct (astype_float32_div_255 <$> paths_to_tensor access sf) as [a3|]; [|done].
  reflexivity.
Qed.

(** ** The directory names *)

Lemma append_cons (c : ascii) (s t : string) : String c s +:+ t = String c (s +:+ t).
Proof. reflexivity. Qed.

Lemma append_nil (t : string) : EmptyString +:+ t = t.
Proof. reflexivity. Qed.

Lemma length_append (s t : string) :
  String.length (s +:+ t) = String.length s + String.length t.
Proof.
  induction s as [|c s IH]; [done|].
  rewrite append_cons. cbn [String.length]. by rewrite IH.
Qed.

Lemma substring_none (n : nat) (s : string) : String.substring n 0 s = EmptyString.
Proof. revert n. induction s as [|c s IH]; intros [|n]; cbn; try done. Qed.

Lemma substring_append (n m : nat) (s t : string) :
  n + m ≤ String.length s → String.substring n m (s +:+ t) = String.substring n m s.
Proof.
  revert n m. induction s as [|c s IH]; intros n m Hlen; cbn in Hlen.
  - assert (n = 0) as -> by lia. assert (m = 0) as -> by lia.
    by rewrite substring_none.
  - rewrite append_cons. destruct n as [|n]; cbn [String.substring].
    + destruct m as [|m]; [done|]. f_equal. apply IH. lia.
    + apply IH. lia.
Qed.

(** [item[20:-1]] on a path that [glob] gives for [dogImages/train/*/]. *)
Lemma slice_glob (name : string) :
  slice 20 1 ("dogImages/train" +:+ "/" +:+ name +:+ "/") = breed name.
Proof.
  unfold slice, breed. rewrite !append_cons, !append_nil.
  cbn [String.length String.substring].
  rewrite length_append. cbn [String.length].
  replace (S (S (S (S (S (S (S (S (S (S (S (S (S (S (S (S
             (String.length name + 1)))))))))))))))) - 1 - 20)
    with (String.length name - 4) by lia.
  destruct (decide (4 ≤ String.length name)).
  - apply substring_append. lia.
  - replace (String.length name - 4) with 0 by lia. by rewrite !substring_none.
Qed.

Lemma dog_names_are_breeds (fs : FileSystem) :
  slice 20 1 <$> sorted (glob_dirs fs "dogImages/train")
  ≡ₚ (breed ∘ e_name) <$> visible_subdirectories fs "dogImages/train".
Proof.
  unfold sorted. rewrite merge_sort_Permutation.
  unfold glob_dirs, visible_subdirectories, subdirectories.
  rewrite <- list_fmap_compose, list_filter_filter.
  assert (filter (λ e, e_is_dir e = true ∧ hidden (e_name e) = false)
                 (default [] (fs !! "dogImages/train"%string))
          = filter (λ e, hidden (e_name e) = false ∧ e_is_dir e = true)
                   (default [] (fs !! "dogImages/train"%string))) as ->.
  { apply list_filter_iff. intros e. tauto. }
  assert (∀ l : list Entry,
            (slice 20 1 ∘ (λ e, "dogImages/train" +:+ "/" +:+ e_name e +:+ "/")) <$> l
            = (breed ∘ e_name) <$> l) as ->; [|done].
  intros l. apply list_fmap_ext. intros _ e _. apply slice_glob.
Qed.

(** X6.  Once the three directories are loaded, cell 1 prints its five
    lines whatever cell 2 does then, and nothing else of the state changes:
    the number of categories is the number of sub-directories of
    [dogImages/train] whose name does not start with a dot, and the total is
    the sum of the three numbers of files. *)
Theorem cells_1_2_prints_statistics
    (shuffle : nat → list nat) (access : Access) (fs : FileSystem) (w : World)
    (tf vf sf : list string) (tt vt st : list (list nat)) :
  load_dataset shuffle access fs "dogImages/train" = Ok (tf, tt) →
  load_dataset shuffle access fs "dogImages/valid" = Ok (vf, vt) →
  load_dataset shuffle access fs "dogImages/test" = Ok (sf, st) →
  (cells_1_2 shuffle access fs w).2
  = upd_log (.++ (Stdout <$>
      [ "There are "
          +:+ pretty (length (visible_subdirectories fs "dogImages/train"))
          +:+ " total dog categories.";
        "There are " +:+ pretty (length tf + length vf + length sf)
          +:+ " total dog images." +:+ String (ascii_of_nat 10) EmptyString;
        "There are " +:+ pretty (length tf) +:+ " training dog images.";
        "There are " +:+ pretty (length vf) +:+ " validation dog images.";
        "There are " +:+ pretty (length sf) +:+ " test dog images." ]%string)) w.
Proof.
  intros Ht Hv Hs. rewrite (cells_1_2_loaded _ _ _ _ _ _ _ _ _ _ Ht Hv Hs).
  cbn [snd]. unfold statistics.
  rewrite (Permutation_length (dog_names_are_breeds fs)), length_fmap.
  by rewrite !length_app, Nat.add_assoc.
Qed.

Lemma cells_1_2_prints_statistics_witness :
  ∃ lines,
    length lines = 5
    ∧ (cells_1_2 sample_shuffle sample_access (dataset 5 []) empty_world).2
      = upd_log (.++ (Stdout <$> lines)) empty_world.
Proof.
  eexists [_; _; _; _; _]. split; [reflexivity|].
  eapply (cells_1_2_prints_statistics sample_shuffle sample_access (dataset 5 []) empty_world);
    vm_compute; reflexivity.
Defined.

(** X7.  When the three directories are loaded, every file that was loaded
    is an image [image.load_img] loads, and one of the directories holds no
    file, cell 2 raises [ValueError], after cell 1 has printed its five
    lines. *)
Theorem cells_1_2_empty_split_raises
    (shuffle : nat → list nat) (access : Access) (fs : FileSystem) (w : World)
    (tf vf sf : list string) (tt vt st : list (list nat)) :
  load_dataset shuffle access fs "dogImages/train" = Ok (tf, tt) →
  load_dataset shuffle access fs "dogImages/valid" = Ok (vf, vt) →
  load_dataset shuffle access fs "dogImages/test" = Ok (sf, st) →
  Forall (λ file, load_img_error access file = None) (tf ++ vf ++ sf) →
  tf = [] ∨ vf = [] ∨ sf = [] →
  ∃ lines,
    length lines = 5
    ∧ cells_1_2 shuffle access fs w
      = (Raise ValueError, upd_log (.++ (Stdout <$> lines)) w).
Proof.
  intros Ht Hv Hs Hd Hempty.
  apply Forall_app in Hd as [Hd1 Hd]. apply Forall_app in Hd as [Hd2 Hd3].
  rewrite (cells_1_2_loaded _ _ _ _ _ _ _ _ _ _ Ht Hv Hs).
  eexists. split; [|f_equal]; [reflexivity|].
  destruct tf as [|f1 tf]; [done|]. rewrite paths_to_tensor_run by done.
  destruct vf as [|f2 vf]; [done|]. rewrite paths_to_tensor_run by done.
  destruct sf as [|f3 sf]; [done|]. by destruct Hempty as [?|[?|?]].
Qed.

Lemma cells_1_2_empty_split_raises_witness :
  ∃ lines,
    length lines = 5
    ∧ cells_1_2 sample_shuffle sample_access (dataset 0 []) empty_world
      = (Raise ValueError, upd_log (.++ (Stdout <$> lines)) empty_world).
Proof.
  eapply (cells_1_2_empty_split_raises sample_shuffle sample_access (dataset 0 [])
            empty_world [] _ _).
  - vm_compute. reflexivity.
  - vm_compute. reflexivity.
  - vm_compute. reflexivity.
  - apply Forall_forall. reflexivity.
  - by left.
Defined.

(** What [.astype('float32')/255] of [paths_to_tensor] gives. *)
Lemma scaled_tensor access (files : list string) (a : Array) :
  astype_float32_div_255 <$> paths_to_tensor access files = Ok a →
  a = {| arr_rows := files; arr_row_shape := [224; 224; 3]; arr_scaled := true |}.
Proof.
  destruct (decide (Forall (λ p, load_img_error access p = None) files)) as [Hall|Hall].
  - destruct files as [|file files]; [done|]. rewrite paths_to_tensor_run by done.
    by intros [= <-].
  - destruct (first_load_img_error access files Hall)
      as (before & img_path & after & e & -> & Hbefore & Himg).
    by rewrite (paths_to_tensor_raises access before after img_path e).
Qed.

(** X8.  When cells 1 and 2 return, each of the three tensors has one row
    per file of its directory, in the order of the files and of the targets,
    every row an image of 224 x 224 x 3 scaled by 1/255, and each of the
    three builders makes a model for inputs of that shape. *)
Theorem cells_1_2_tensors
    (shuffle : nat → list nat) (access : Access) (depth : nat) (fs : FileSystem)
    (w : World) (g : Globals) (w' : World) :
  cells_1_2 shuffle access fs w = (Ok g, w') →
  train_tensors g = {| arr_rows := train_files g; arr_row_shape := [224; 224; 3];
                       arr_scaled := true |}
  ∧ valid_tensors g = {| arr_rows := valid_files g; arr_row_shape := [224; 224; 3];
                         arr_scaled := true |}
  ∧ test_tensors g = {| arr_rows := test_files g; arr_row_shape := [224; 224; 3];
                        arr_scaled := true |}
  ∧ length (train_targets g) = length (arr_rows (train_tensors g))
  ∧ length (valid_targets g) = length (arr_rows (valid_tensors g))
  ∧ length (test_targets g) = length (arr_rows (test_tensors g))
  ∧ ∀ w0,
      (input_shape ∘ fst) <$> scratch_variant depth g w0 = Some [224; 224; 3]
      ∧ (input_shape ∘ fst) <$> finetune_variant depth g w0 = Some [224; 224; 3]
      ∧ (input_shape ∘ fst) <$> frozen_variant depth g w0 = Some [224; 224; 3].
Proof.
  intros (Ht & Hv & Hs & _ & _ & Ha1 & Ha2 & Ha3)%cells_1_2_inv.
  apply scaled_tensor in Ha1, Ha2, Ha3.
  apply load_dataset_rows in Ht as [_ Ht], Hv as [_ Hv], Hs as [_ Hs].
  rewrite Ha1, Ha2, Ha3. cbn [arr_rows].
  do 3 (split; [done|]). do 3 (split; [done|]).
  intros w0. rewrite scratch_variant_is, finetune_variant_is, frozen_variant_is.
  by rewrite Ha1.
Qed.

Lemma cells_1_2_tensors_witness :
  train_tensors loaded_globals
  = {| arr_rows := train_files loaded_globals; arr_row_shape := [224; 224; 3];
       arr_scaled := true |}.
Proof.
  apply (cells_1_2_tensors sample_shuffle sample_access keras_depth (dataset 133 []) empty_world
           loaded_globals sample_cells_1_2.2 sample_cells_1_2_return).
Defined.

(** X9.  When cells 1 and 2 return and the names of the sub-directories of
    [dogImages/train] that do not start with a dot are of the ASCII range,
    [dog_names] holds, for each of these sub-directories, the name without
    its first four characters, and nothing else. *)
Theorem cells_1_2_dog_names
    (shuffle : nat → list nat) (access : Access) (fs : FileSystem)
    (w : World) (g : Globals) (w' : World) :
  forallb (λ e, ascii_only (e_name e)) (visible_subdirectories fs "dogImages/train")
  = true →
  cells_1_2 shuffle access fs w = (Ok g, w') →
  dog_names g ≡ₚ (breed ∘ e_name) <$> visible_subdirectories fs "dogImages/train".
Proof.
  intros _ (_ & _ & _ & -> & _)%cells_1_2_inv. apply dog_names_are_breeds.
Qed.

Lemma cells_1_2_dog_names_witness :
  dog_names loaded_globals
  ≡ₚ (breed ∘ e_name) <$> visible_subdirectories (dataset 133 []) "dogImages/train".
Proof.
  apply (cells_1_2_dog_names sample_shuffle sample_access (dataset 133 []) empty_world
           loaded_globals sample_cells_1_2.2); [|exact sample_cells_1_2_return].
  vm_compute. reflexivity.
Defined.

(** ** The builders and the store *)

Lemma built_allocates depth g ws b f w :
  allocates depth w (built depth g ws b (upd_log f w)).
Proof.
  destruct w as [lw mw hw rw ew]. unfold allocates, built.
  cbn -[seq base_layers head_layers].
  eexists _, _, _. split; [reflexivity|].
  split; [by rewrite length_app, length_base_layers|].
  split; [reflexivity|]. cbn -[seq].
  split; [reflexivity|]. split; [apply seq_app|]. done.
Qed.

(** X10.  Each of the three builders, started in any state, leaves every
    layer object and model object that was there as it was, adds
    [depth + 3] layer objects and two model objects, the base model and its
    extension, and touches neither the histories nor [results].  The
    extension does not copy the base: its first [depth] layers are the layer
    objects of the base model themselves, followed by the three new ones.
    Neither model is compiled. *)
Theorem builders_allocate (depth : nat) (g : Globals) (w : World) :
  allocates depth w (create_scratch_model depth g w).2
  ∧ allocates depth w (create_finetune_model depth g w).2
  ∧ allocates depth w (create_frozen_model depth g w).2.
Proof.
  rewrite create_scratch_model_run, create_finetune_model_run, create_frozen_model_run.
  cbn [snd]. repeat split; apply built_allocates.
Qed.

(** ** [train]: what it raises, and what it leaves in the state *)

(** X11.  [train] looks at its solver in lowercase only: two solvers that
    agree but for capitalisation give the same state and the same learning
    rate and history, or the same exception; and the result carries the
    solver as it was passed. *)
Theorem train_case_insensitive
    (training : FitCall → res HistoryDict) (g : Globals)
    (model : value) (solver1 solver2 : string) (lr : float) (w : World) :
  lower solver1 = lower solver2 →
  (train training g model solver1 lr w).2 = (train training g model solver2 lr w).2
  ∧ (λ r : Result, (r.1.2, r.2)) <$> (train training g model solver1 lr w).1
    = (λ r : Result, (r.1.2, r.2)) <$> (train training g model solver2 lr w).1
  ∧ ∀ r, (train training g model solver1 lr w).1 = Ok r → r.1.1 = solver1.
Proof.
  intros Hs. unfold train. rewrite Hs.
  match goal with
  | |- context [mbind _ ?pre] => generalize pre
  end.
  intros pre. rewrite !bind_run.
  destruct (pre w) as [[[]|e] w1]; [|by repeat split].
  rewrite !bind_run.
  destruct (fit _ _ _ _ _ _ _ _ w1) as [[h|e] w2]; [|by repeat split].
  repeat split. by intros r [= <-].
Qed.

Lemma train_case_insensitive_witness :
  (train sample_training sample_globals (PyObject 1) "SGD" 1e-3%float sample_world).2
  = (train sample_training sample_globals (PyObject 1) "sgd" 1e-3%float sample_world).2.
Proof.
  apply (train_case_insensitive sample_training sample_globals (PyObject 1)
           "SGD" "sgd" 1e-3%float sample_world).
  reflexivity.
Defined.

(** X12.  [train] on [None] raises [AttributeError] and changes nothing,
    whatever the solver: [compile] is looked up on [None] before the
    optimizer is made, for ['adam'] too, and with a solver that has no branch
    the lookup of [fit] raises.  So passing on what [create_scratch_model]
    or [create_frozen_model] returns raises [AttributeError], in the state
    the builder has left.  On a model object, ['adam'] raises the
    [TypeError] of its optimizer. *)
Theorem train_on_none_raises
    (training : FitCall → res HistoryDict) (depth : nat) (g : Globals)
    (solver : string) (lr : float) (w : World) :
  train training g PyNone solver lr w = (Raise AttributeError, w)
  ∧ (create_scratch_model depth g ≫= λ model, train training g model solver lr) w
    = (Raise AttributeError, (create_scratch_model depth g w).2)
  ∧ (create_frozen_model depth g ≫= λ model, train training g model solver lr) w
    = (Raise AttributeError, (create_frozen_model depth g w).2)
  ∧ ∀ ref, lower solver = "adam"%string →
           train training g (PyObject ref) solver lr w = (Raise TypeError, w).
Proof.
  split; [apply train_none|].
  rewrite !bind_run, create_scratch_model_run, create_frozen_model_run.
  cbv beta iota. rewrite !train_none. repeat split.
  intros ref Hadam. by apply train_adam.
Qed.

(** X13.  [train] on a model object with ['sgd'] or ['nesterov'], in any
    capitalisation: the model gets an SGD optimizer with the learning rate
    passed, momentum 0.9, and Nesterov momentum exactly for ['nesterov'],
    in place of the optimizer it had; no other model object and no result
    changes; one [compile] and then one [fit] on this model are logged; and
    [train] returns the solver, the learning rate and a new [History] when
    the training run returns, and raises what it raises otherwise. *)
Theorem train_compiles_and_fits
    (training : FitCall → res HistoryDict) (g : Globals)
    (ref : nat) (m : ModelObj) (solver : string) (lr : float) (w : World) :
  w_models w !! ref = Some m →
  supported solver →
  let opt := SGD_optimizer lr 0.9%float (bool_decide (lower solver = "nesterov"%string)) in
  let call := train_call g (with_optimizer opt m) (model_layers w m) in
  let trained := train training g (PyObject ref) solver lr w in
  w_models trained.2 = <[ref := with_optimizer opt m]> (w_models w)
  ∧ w_results trained.2 = w_results w
  ∧ w_log trained.2 = w_log w ++ [Compiled ref opt; Fitted ref call]
  ∧ match training call with
    | Ok h => trained.1 = Ok (solver, lr, {| h_id := w_histories w; h_history := h |})
              ∧ w_histories trained.2 = S (w_histories w)
    | Raise e => trained.1 = Raise e ∧ w_histories trained.2 = w_histories w
    end.
Proof.
  intros Hm Hs opt call trained. subst trained.
  rewrite (train_sgd _ _ _ _ _ _ _ Hm Hs). fold opt. fold call.
  unfold run_training.
  assert (Halter : alter (with_optimizer opt) ref (w_models w)
                   = <[ref := with_optimizer opt m]> (w_models w)).
  { apply list_eq. intros i. destruct (decide (i = ref)) as [->|Hne].
    - rewrite list_lookup_alter_eq, Hm, list_lookup_insert_eq; [done|].
      by apply lookup_lt_Some in Hm.
    - by rewrite list_lookup_alter_ne, list_lookup_insert_ne. }
  destruct (training call) as [h|e]; destruct w as [lw mw hw rw ew];
    cbn -[call opt] in *; rewrite Halter, <- app_assoc; done.
Qed.

Lemma train_compiles_and_fits_witness :
  ∃ m, w_models sample_world !! 1 = Some m
       ∧ w_models (train sample_training sample_globals (PyObject 1) "Nesterov"
                         1e-3%float sample_world).2
         = <[1 := with_optimizer (SGD_optimizer 1e-3%float 0.9%float true) m]>
             (w_models sample_world).
Proof.
  eexists. split; [reflexivity|].
  eapply (train_compiles_and_fits sample_training sample_globals 1 _
            "Nesterov" 1e-3%float sample_world).
  - reflexivity.
  - right. reflexivity.
Defined.

(** ** More on the sweep *)

Lemma for_each_app {A} (l1 l2 : list A) (body : A → M unit) (w : World) :
  for_each (l1 ++ l2) body w = (for_each l1 body;; for_each l2 body) w.
Proof.
  revert w. induction l1 as [|x l1 IH]; intros w; [done|].
  cbn [app for_each]. rewrite !bind_run.
  destruct (body x w) as [[[]|e] w1]; [|done]. by rewrite IH, bind_run.
Qed.

Lemma sweep_is_for_each depth training float_format_f g solvers lrs :
  sweep depth training float_format_f g solvers lrs
  = for_each solvers (λ solver,
      for_each lrs (sweep_body depth training float_format_f g solver)).
Proof. reflexivity. Qed.

(** The sweep keeps what its body keeps. *)
Lemma sweep_induction depth training float_format_f g
    (R : World → World → list (string * float) → Prop) :
  (∀ w, R w w []) →
  (∀ w1 w2 w3 p1 p2, R w1 w2 p1 → R w2 w3 p2 → R w1 w3 (p1 ++ p2)) →
  (∀ solver lr w, supported solver →
     ∃ w', sweep_body depth training float_format_f g solver lr w = (Ok (), w')
           ∧ R w w' [(solver, lr)]) →
  ∀ solvers lrs w, Forall supported solvers →
    ∃ w', sweep depth training float_format_f g solvers lrs w = (Ok (), w')
          ∧ R w w' (grid solvers lrs).
Proof.
  intros Hnil Happ Hbody solvers lrs w Hs. rewrite sweep_is_for_each. revert w.
  induction Hs as [|solver solvers Hsolver _ IH]; intros w.
  - exists w. by split.
  - cbn [for_each grid]. rewrite bind_run.
    assert (∃ w1, for_each lrs (sweep_body depth training float_format_f g solver) w
                  = (Ok (), w1) ∧ R w w1 (pair solver <$> lrs)) as (w1 & -> & Hinner).
    { clear IH. revert w. induction lrs as [|lr lrs IHl]; intros w.
      - exists w. by split.
      - cbn [for_each]. rewrite bind_run.
        destruct (Hbody solver lr w Hsolver) as (wa & -> & Hstep).
        destruct (IHl wa) as (wb & Hrun & Hrest).
        exists wb. split; [done|]. apply (Happ _ _ _ [(solver, lr)] _ Hstep Hrest). }
    destruct (IH w1) as (w2 & Hrun & Hrest).
    exists w2. split; [done|]. by apply (Happ _ _ _ _ _ Hinner Hrest).
Qed.

Lemma alter_fresh {A} (f : A → A) (l : list A) (a b : A) :
  alter f (S (length l)) (l ++ [a; b]) = l ++ [a; f b].
Proof.
  rewrite alter_app_r_alt by lia.
  replace (S (length l) - length l) with 1 by lia. done.
Qed.

Lemma length_finetune_layers depth g : length (finetune_layers depth g) = depth + 3.
Proof. unfold finetune_layers. by rewrite length_app, length_base_layers. Qed.

Lemma length_join_replicate {A} (n : nat) (l : list A) :
  length (mjoin (replicate n l)) = n * length l.
Proof. induction n as [|n IH]; [done|]. csimpl. rewrite length_app, IH. lia. Qed.

Lemma explored_nil depth ff g w : explored depth ff g w w [].
Proof.
  split; [by rewrite app_nil_r|]. split.
  - exists []. by rewrite app_nil_r.
  - exists []. by rewrite app_nil_r.
Qed.

Lemma explored_app depth ff g w1 w2 w3 p1 p2 :
  explored depth ff g w1 w2 p1 → explored depth ff g w2 w3 p2 →
  explored depth ff g w1 w3 (p1 ++ p2).
Proof.
  intros (Hl1 & (n1 & Hm1 & Hr1 & Ho1) & (l1 & Hlog1 & Hs1 & Hc1))
         (Hl2 & (n2 & Hm2 & Hr2 & Ho2) & (l2 & Hlog2 & Hs2 & Hc2)).
  unfold explored. rewrite length_app. split; [|split].
  - by rewrite Hl2, Hl1, replicate_add, join_app, app_assoc.
  - exists (n1 ++ n2). split; [by rewrite Hm2, Hm1, app_assoc|].
    split; [|by rewrite !fmap_app, join_app, Ho1, Ho2].
    rewrite fmap_app, Hr1, Hr2, seq_app, fmap_app, join_app. f_equal. f_equal.
    rewrite Hl1, length_app, length_join_replicate, length_finetune_layers.
    assert (seq (0 + length p1) (length p2) = Nat.add (length p1) <$> seq 0 (length p2))
      as -> by (by rewrite fmap_add_seq, Nat.add_0_r).
    rewrite <- list_fmap_compose. apply list_fmap_ext. intros _ k _.
    unfold finetune_references, compose.
    by replace (length (w_layers w1) + length p1 * (depth + 3) + k * (depth + 3))
      with (length (w_layers w1) + (length p1 + k) * (depth + 3)) by lia.
  - exists (l1 ++ l2). split; [by rewrite Hlog2, Hlog1, app_assoc|].
    unfold stdout, compiled in *. rewrite !omap_app, !fmap_app.
    by rewrite Hs1, Hs2, Hc1, Hc2.
Qed.

Section SweepBody.

Variable depth : nat.
Variable training : FitCall → res HistoryDict.
Variable float_format_f : float → string.
Variable g : Globals.

Hypothesis training_returns :
  ∀ c, is_Some (optimizer (fc_model c)) → returns (training c).

(** The state one pass of the body leaves. *)
Lemma sweep_body_state solver lr w :
  supported solver →
  let line := Stdout (announcement float_format_f (solver, lr)) in
  let wa := built depth g imagenet_weights true
              (upd_log (.++ [Called "create_finetune_model"%string])
                       (upd_log (.++ [line]) w)) in
  let ref := S (length (w_models w)) in
  let opt := sgd_for (solver, lr) in
  ∃ call h,
    sweep_body depth training float_format_f g solver lr w
    = (Ok (),
       upd_results (.++ [(solver, lr, {| h_id := w_histories w; h_history := h |})])
         (upd_histories S
            (upd_log (.++ [Fitted ref call])
               (upd_models (alter (with_optimizer opt) ref)
                  (upd_log (.++ [Compiled ref opt]) wa))))).
Proof.
  intros Hs line wa ref opt. unfold sweep_body. rewrite bind_run.
  change (print _ w) with (Ok (), upd_log (.++ [line]) w).
  cbv beta iota. rewrite bind_run, create_finetune_model_run.
  cbv beta iota. rewrite bind_run. fold wa.
  pose proof (built_model_lookup depth g imagenet_weights true
                (upd_log (.++ [Called "create_finetune_model"%string])
                         (upd_log (.++ [line]) w))) as Hm.
  fold wa in Hm.
  change (w_models (upd_log _ (upd_log _ w))) with (w_models w) in *.
  rewrite (train_sgd _ _ _ _ _ _ _ Hm Hs). fold (sgd_for (solver, lr)). fold opt.
  set (call := train_call _ _ _).
  destruct (training_returns call) as [h Hh]; [by eexists|].
  exists call, h. unfold run_training. rewrite Hh. reflexivity.
Qed.

Lemma sweep_body_explored solver lr w :
  supported solver →
  ∃ w', sweep_body depth training float_format_f g solver lr w = (Ok (), w')
        ∧ explored depth float_format_f g w w' [(solver, lr)].
Proof.
  intros Hs. destruct (sweep_body_state solver lr w Hs) as (call & h & Hrun).
  cbv zeta in Hrun. eexists. split; [exact Hrun|].
  destruct w as [lw mw hw rw ew]. unfold explored, built.
  cbn -[seq base_layers head_layers finetune_layers finetune_references sgd_for
        announcement].
  split; [|split].
  - by rewrite app_nil_r.
  - rewrite alter_fresh. eexists. split; [reflexivity|].
    unfold finetune_references. cbn -[seq sgd_for].
    change (seq 0 1) with [0]. cbn [fmap list_fmap mjoin list_join app Nat.mul].
    by rewrite Nat.add_0_r.
  - eexists [_; _; _; _]. split; [by rewrite <- !app_assoc|]. done.
Qed.

Lemma sweep_explored solvers lrs w :
  Forall supported solvers →
  ∃ w', sweep depth training float_format_f g solvers lrs w = (Ok (), w')
        ∧ explored depth float_format_f g w w' (grid solvers lrs).
Proof.
  apply sweep_induction.
  - apply explored_nil.
  - apply explored_app.
  - apply sweep_body_explored.
Qed.

End SweepBody.

(** X14.  With no learning rate, or with no solver, the sweep does nothing,
    whatever the solvers are: nothing is printed, no model is built, and no
    solver is looked at. *)
Theorem sweep_without_pairs
    (depth : nat) (training : FitCall → res HistoryDict)
    (float_format_f : float → string) (g : Globals)
    (solvers : list string) (learning_rates : list float) (w : World) :
  sweep depth training float_format_f g solvers [] w = (Ok (), w)
  ∧ sweep depth training float_format_f g [] learning_rates w = (Ok (), w).
Proof.
  split; [|done]. rewrite sweep_is_for_each.
  induction solvers as [|solver solvers IH]; [done|].
  cbn [for_each]. by rewrite bind_run.
Qed.

(** X15.  With ['adam'] among the solvers, after solvers that [train]
    compiles for, the sweep goes through the pairs of the earlier solvers
    and then raises [TypeError] at the first learning rate of ['adam']:
    that pair is announced and a model is built for it, but nothing is
    compiled, fitted or appended to [results] for it, and no later pair is
    reached. *)
Theorem sweep_stops_at_adam
    (depth : nat) (training : FitCall → res HistoryDict)
    (float_format_f : float → string) (g : Globals)
    (earlier later : list string) (solver : string)
    (lr : float) (learning_rates : list float) (w : World) :
  (∀ c, is_Some (optimizer (fc_model c)) → returns (training c)) →
  Forall supported earlier →
  lower solver = "adam"%string →
  ∃ w1 w',
    sweep depth training float_format_f g earlier (lr :: learning_rates) w = (Ok (), w1)
    ∧ swept w w1 (grid earlier (lr :: learning_rates))
    ∧ sweep depth training float_format_f g (earlier ++ solver :: later)
            (lr :: learning_rates) w
      = (Raise TypeError, w')
    ∧ allocates depth w1 w'
    ∧ w_log w' = w_log w1 ++ [Stdout (announcement float_format_f (solver, lr));
                               Called "create_finetune_model"%string].
Proof.
  intros Htraining Hearlier Hadam.
  destruct (sweep_run depth training float_format_f g Htraining
              earlier (lr :: learning_rates) w Hearlier) as (w1 & Hrun & Hswept).
  exists w1. eexists. split; [exact Hrun|]. split; [exact Hswept|].
  rewrite sweep_is_for_each in Hrun |- *.
  rewrite for_each_app, bind_run, Hrun. cbn [for_each].
  rewrite !bind_run. fold (sweep_body depth training float_format_f g solver lr).
  unfold sweep_body at 1. rewrite bind_run.
  change (print ?text w1) with (Ok (), upd_log (.++ [Stdout text]) w1).
  cbv beta iota. rewrite bind_run, create_finetune_model_run.
  cbv beta iota. rewrite bind_run, train_adam by done.
  split; [reflexivity|]. split.
  - pose proof (built_allocates depth g imagenet_weights true
                  (λ l, (l ++ [Stdout (announcement float_format_f (solver, lr))])
                        ++ [Called "create_finetune_model"%string]) w1) as Hbuilt.
    destruct w1. exact Hbuilt.
  - destruct w1. cbn. by rewrite <- app_assoc.
Qed.

Lemma sweep_stops_at_adam_witness :
  ∃ w', sweep 2 sample_training sample_format_f sample_globals
              commented_solvers commented_learning_rates empty_world
        = (Raise TypeError, w').
Proof.
  destruct (sweep_stops_at_adam 2 sample_training sample_format_f sample_globals
              ["sgd"; "nesterov"]%string [] "adam" 1e-3%float [5e-4%float; 1e-4%float]
              empty_world sample_training_returns) as (w1 & w' & _ & _ & Hrun & _).
  - apply Forall_cons. split; [by left|].
    apply Forall_cons. split; [by right | apply Forall_nil_2].
  - reflexivity.
  - exists w'. exact Hrun.
Defined.

(** X16.  When every solver is one [train] compiles for and fitting a
    compiled model returns, the [print] of the sweep writes one line per
    pair, in the order of the loops, that names the solver as it is written
    and the learning rate; and the sweep compiles once per pair, in the same
    order, with SGD at the learning rate of the pair, momentum 0.9, and
    Nesterov momentum exactly for the solver ['nesterov']. *)
Theorem sweep_announces_and_compiles
    (depth : nat) (training : FitCall → res HistoryDict)
    (float_format_f : float → string) (g : Globals)
    (solvers : list string) (learning_rates : list float) (w : World) :
  (∀ c, is_Some (optimizer (fc_model c)) → returns (training c)) →
  Forall supported solvers →
  ∃ w' newlog,
    sweep depth training float_format_f g solvers learning_rates w = (Ok (), w')
    ∧ w_log w' = w_log w ++ newlog
    ∧ stdout newlog
      = (λ p, "Training " +:+ p.1 +:+ " with a learning rate of " +:+ float_format_f p.2)
          <$> grid solvers learning_rates
    ∧ compiled newlog
      = (λ p, SGD_optimizer p.2 0.9%float (bool_decide (lower p.1 = "nesterov"%string)))
          <$> grid solvers learning_rates.
Proof.
  intros Htraining Hsolvers.
  destruct (sweep_explored depth training float_format_f g Htraining
              solvers learning_rates w Hsolvers)
    as (w' & Hrun & _ & _ & (newlog & Hlog & Hout & Hopt)).
  by exists w', newlog.
Qed.

Lemma sweep_announces_and_compiles_witness :
  ∃ w' newlog,
    sweep keras_depth sample_training sample_format_f sample_globals
          solvers learning_rates empty_world = (Ok (), w')
    ∧ w_log w' = w_log empty_world ++ newlog
    ∧ stdout newlog
      = (λ p, "Training " +:+ p.1 +:+ " with a learning rate of " +:+ sample_format_f p.2)
          <$> grid solvers learning_rates
    ∧ compiled newlog
      = (λ p, SGD_optimizer p.2 0.9%float (bool_decide (lower p.1 = "nesterov"%string)))
          <$> grid solvers learning_rates.
Proof.
  apply (sweep_announces_and_compiles keras_depth sample_training sample_format_f
           sample_globals solvers learning_rates empty_world sample_training_returns).
  apply Forall_cons. split; [by left | apply Forall_nil_2].
Defined.

Lemma lookup_pairs {A} (f h : nat → A) (first n i : nat) :
  i < n →
  mjoin ((λ k, [f k; h k]) <$> seq first n) !! (2 * i + 1) = Some (h (first + i)).
Proof.
  revert first i. induction n as [|n IH]; intros first i Hi; [lia|].
  assert (mjoin ((λ k, [f k; h k]) <$> seq first (S n))
          = f first :: h first :: mjoin ((λ k, [f k; h k]) <$> seq (S first) n)) as ->
    by reflexivity.
  destruct i as [|i].
  - by rewrite Nat.add_0_r.
  - replace (2 * S i + 1) with (S (S (2 * i + 1))) by lia.
    rewrite lookup_cons. cbv beta iota. rewrite lookup_cons. cbv beta iota.
    rewrite (IH (S first) i) by lia. f_equal. f_equal. lia.
Qed.

(** X17.  When every solver is one [train] compiles for and fitting a
    compiled model returns, the sweep leaves every layer object and model
    object that was there as it was, and adds per pair the layer objects of
    one fine-tune model, all trainable, ImageNet weights in the base, and
    two model objects: the base, which is never compiled, and its
    extension, compiled for the pair.  The models of two different pairs
    have no layer object in common. *)
Theorem sweep_models_are_fresh
    (depth : nat) (training : FitCall → res HistoryDict)
    (float_format_f : float → string) (g : Globals)
    (solvers : list string) (learning_rates : list float) (w : World) :
  (∀ c, is_Some (optimizer (fc_model c)) → returns (training c)) →
  Forall supported solvers →
  let pairs := grid solvers learning_rates in
  ∃ w' news,
    sweep depth training float_format_f g solvers learning_rates w = (Ok (), w')
    ∧ w_layers w'
      = w_layers w
        ++ mjoin (replicate (length pairs)
                    (base_layers depth imagenet_weights true ++ head_layers (num_classes g)))
    ∧ w_models w' = w_models w ++ news
    ∧ length news = 2 * length pairs
    ∧ optimizer <$> news = mjoin ((λ p, [None; Some (sgd_for p)]) <$> pairs)
    ∧ ∀ i j mi mj,
        news !! (2 * i + 1) = Some mi → news !! (2 * j + 1) = Some mj → i ≠ j →
        length (layers mi) = depth + 3 ∧ layers mi ## layers mj.
Proof.
  intros Htraining Hsolvers pairs.
  destruct (sweep_explored depth training float_format_f g Htraining
              solvers learning_rates w Hsolvers)
    as (w' & Hrun & Hlayers & (news & Hmodels & Hrefs & Hopts) & _).
  fold pairs in Hlayers, Hrefs, Hopts.
  exists w', news. split; [exact Hrun|]. split; [exact Hlayers|].
  split; [exact Hmodels|].
  assert (Hlen : length news = 2 * length pairs).
  { rewrite <- (length_fmap optimizer), Hopts. clear.
    induction pairs as [|p pairs IH]; [done|]. csimpl. lia. }
  split; [exact Hlen|]. split; [exact Hopts|].
  assert (Hat : ∀ i m, news !! (2 * i + 1) = Some m →
            layers m = seq (length (w_layers w) + i * (depth + 3)) (depth + 3)).
  { intros i m Hm.
    assert (i < length pairs) as Hi by (apply lookup_lt_Some in Hm; lia).
    apply (f_equal (fmap layers)) in Hm. rewrite <- list_lookup_fmap, Hrefs in Hm.
    unfold finetune_references in Hm.
    rewrite (lookup_pairs
               (λ k, seq (length (w_layers w) + k * (depth + 3)) depth)
               (λ k, seq (length (w_layers w) + k * (depth + 3)) (depth + 3))
               0 (length pairs) i Hi) in Hm.
    by injection Hm as <-. }
  intros i j mi mj Hi%Hat Hj%Hat Hne. rewrite Hi, Hj. split; [apply length_seq|].
  intros r H1%elem_of_seq H2%elem_of_seq.
  destruct (decide (i < j)) as [Hlt|Hge].
  - pose proof (Nat.mul_le_mono_r (S i) j (depth + 3) Hlt). lia.
  - assert (Hlt : S j ≤ i) by lia.
    pose proof (Nat.mul_le_mono_r (S j) i (depth + 3) Hlt). lia.
Qed.

Lemma sweep_models_are_fresh_witness :
  ∃ w' news,
    sweep keras_depth sample_training sample_format_f sample_globals
          solvers learning_rates empty_world = (Ok (), w')
    ∧ w_models w' = w_models empty_world ++ news
    ∧ length news = 2 * length (grid solvers learning_rates).
Proof.
  destruct (sweep_models_are_fresh keras_depth sample_training sample_format_f
              sample_globals solvers learning_rates empty_world sample_training_returns)
    as (w' & news & Hrun & _ & Hmodels & Hlen & _).
  - apply Forall_cons. split; [by left | apply Forall_nil_2].
  - exists w', news. exact (conj Hrun (conj Hmodels Hlen)).
Defined.

(** ** Cell 6 and the whole notebook *)

(** X18.  Cell 6 starts from an empty [results]: run a second time, it
    leaves the triples of the second run alone, with the histories made
    last, while the model objects of both runs stay in the store. *)
Theorem cell_6_again
    (depth : nat) (training : FitCall → res HistoryDict)
    (float_format_f : float → string) (g : Globals) (w : World) :
  (∀ c, is_Some (optimizer (fc_model c)) → returns (training c)) →
  ∃ w1 w2,
    cell_6 depth training float_format_f g w = (Ok (), w1)
    ∧ cell_6 depth training float_format_f g w1 = (Ok (), w2)
    ∧ configuration <$> w_results w1 = grid solvers learning_rates
    ∧ configuration <$> w_results w2 = grid solvers learning_rates
    ∧ (λ r : Result, h_id r.2) <$> w_results w2
      = [w_histories w + 2; w_histories w + 3]
    ∧ length (w_models w2) = length (w_models w) + 8.
Proof.
  intros Htraining.
  destruct (cell_6_run depth training float_format_f g w Htraining)
    as (w1 & Hrun1 & (news1 & Hres1 & Hconf1 & _) & Hhist1 & Hmod1 & _).
  destruct (cell_6_run depth training float_format_f g w1 Htraining)
    as (w2 & Hrun2 & (news2 & Hres2 & Hconf2 & Hids2) & _ & Hmod2 & _).
  exists w1, w2. split; [exact Hrun1|]. split; [exact Hrun2|].
  destruct w as [lw mw hw rw ew], w1 as [lw1 mw1 hw1 rw1 ew1].
  cbn in Hres1, Hres2, Hhist1, Hmod1, Hmod2, Hids2 |- *.
  rewrite Hres2. subst rw1. split; [exact Hconf1|]. split; [exact Hconf2|].
  split; [|lia]. rewrite Hids2, Hhist1.
  by replace (S (hw + 2)) with (hw + 3) by lia.
Qed.

Lemma cell_6_again_witness :
  ∃ w1 w2,
    cell_6 keras_depth sample_training sample_format_f sample_globals empty_world
    = (Ok (), w1)
    ∧ cell_6 keras_depth sample_training sample_format_f sample_globals w1 = (Ok (), w2)
    ∧ configuration <$> w_results w2 = grid solvers learning_rates.
Proof.
  destruct (cell_6_again keras_depth sample_training sample_format_f sample_globals
              empty_world sample_training_returns)
    as (w1 & w2 & Hrun1 & Hrun2 & _ & Hconf & _).
  exists w1, w2. exact (conj Hrun1 (conj Hrun2 Hconf)).
Defined.

(** X19.  When one of the three directories cannot be loaded, the notebook
    raises what [load_dataset] raises, [OSError] or [IndexError], before any
    of its [print] statements has run and before any object is made. *)
Theorem notebook_load_failure
    (shuffle : nat → list nat) (access : Access) (depth : nat)
    (training : FitCall → res HistoryDict)
    (float_repr float_format_f : float → string) (address : nat → N)
    (fs : FileSystem) (w : World) :
  ¬ returns (load_dataset shuffle access fs "dogImages/train")
  ∨ ¬ returns (load_dataset shuffle access fs "dogImages/valid")
  ∨ ¬ returns (load_dataset shuffle access fs "dogImages/test") →
  ∃ e, notebook shuffle access depth training float_repr float_format_f address fs w
       = (Raise e, w)
       ∧ (e = OSError ∨ e = IndexError).
Proof.
  intros Hfail. unfold notebook, cells_1_2. rewrite !bind_run. unfold lift at 1.
  destruct (load_dataset shuffle access fs "dogImages/train") as [[tf tt]|e] eqn:Ht;
    [|exists e; split; [done | by apply load_dataset_exn in Ht]].
  rewrite bind_run. unfold lift at 1.
  destruct (load_dataset shuffle access fs "dogImages/valid") as [[vf vt]|e] eqn:Hv;
    [|exists e; split; [done | by apply load_dataset_exn in Hv]].
  rewrite bind_run. unfold lift at 1.
  destruct (load_dataset shuffle access fs "dogImages/test") as [[sf st]|e] eqn:Hs;
    [|exists e; split; [done | by apply load_dataset_exn in Hs]].
  destruct Hfail as [H|[H|H]]; destruct H; by eexists.
Qed.

Lemma notebook_load_failure_witness :
  ∃ e, notebook sample_shuffle sample_access keras_depth sample_training sample_repr
                sample_format_f sample_address ∅ empty_world
       = (Raise e, empty_world)
       ∧ (e = OSError ∨ e = IndexError).
Proof.
  apply (notebook_load_failure sample_shuffle sample_access keras_depth sample_training
           sample_repr sample_format_f sample_address ∅ empty_world).
  left. intros [r Hr]. vm_compute in Hr. discriminate Hr.
Defined.

Lemma stdout_lines (lines : list string) : stdout (Stdout <$> lines) = lines.
Proof.
  induction lines as [|line lines IH]; [done|].
  change (stdout (Stdout <$> line :: lines)) with (line :: stdout (Stdout <$> lines)).
  by rewrite IH.
Qed.

(** X20.  When the three directories are loaded, each with a file, every
    file that was loaded is an image [image.load_img] loads, and fitting a
    compiled model returns, the notebook runs to its end: its
    [print] statements write the five lines of cell 1, one line per pair of
    the sweep, and the list [results], in this order and no other line, and
    [results] holds one triple per pair of [solvers] and
    [learning_rates]. *)
Theorem notebook_returns
    (shuffle : nat → list nat) (access : Access) (depth : nat)
    (training : FitCall → res HistoryDict)
    (float_repr float_format_f : float → string) (address : nat → N)
    (fs : FileSystem) (w : World)
    (tf vf sf : list string) (tt vt st : list (list nat)) :
  load_dataset shuffle access fs "dogImages/train" = Ok (tf, tt) →
  load_dataset shuffle access fs "dogImages/valid" = Ok (vf, vt) →
  load_dataset shuffle access fs "dogImages/test" = Ok (sf, st) →
  tf ≠ [] → vf ≠ [] → sf ≠ [] →
  Forall (λ file, load_img_error access file = None) (tf ++ vf ++ sf) →
  (∀ c, is_Some (optimizer (fc_model c)) → returns (training c)) →
  ∃ w',
    notebook shuffle access depth training float_repr float_format_f address fs w = (Ok (), w')
    ∧ configuration <$> w_results w' = grid solvers learning_rates
    ∧ stdout (w_log w')
      = stdout (w_log w)
        ++ statistics (slice 20 1 <$> sorted (glob_dirs fs "dogImages/train")) tf vf sf
        ++ (announcement float_format_f <$> grid solvers learning_rates)
        ++ [results_repr float_repr address (w_results w')].
Proof.
  intros Ht Hv Hs Htf Hvf Hsf Hd Htraining. unfold notebook. rewrite bind_run.
  apply Forall_app in Hd as [Hd1 Hd]. apply Forall_app in Hd as [Hd2 Hd3].
  rewrite (cells_1_2_loaded _ _ _ _ _ _ _ _ _ _ Ht Hv Hs).
  destruct tf as [|f1 tf]; [done|]. destruct vf as [|f2 vf]; [done|].
  destruct sf as [|f3 sf]; [done|]. rewrite !paths_to_tensor_run by done.
  cbn [fmap res_fmap mbind res_bind]. rewrite bind_run.
  set (g := mkGlobals _ _ _ _ _ _ _ _ _ _ _).
  set (w1 := upd_log _ w).
  unfold cell_6. rewrite bind_run.
  change (results_reset w1) with (Ok (), upd_results (λ _, []) w1). cbv beta iota.
  assert (Hsolvers : Forall supported solvers).
  { apply Forall_cons. split; [by left | apply Forall_nil_2]. }
  destruct (sweep_run depth training float_format_f g Htraining
              solvers learning_rates (upd_results (λ _, []) w1) Hsolvers)
    as (w2 & Hrun & (news & Hres & Hconf & _) & _).
  destruct (sweep_explored depth training float_format_f g Htraining
              solvers learning_rates (upd_results (λ _, []) w1) Hsolvers)
    as (w2' & Hrun' & _ & _ & (newlog & Hlog & Hout & _)).
  rewrite Hrun in Hrun'. injection Hrun' as <-. rewrite Hrun.
  eexists. split; [reflexivity|].
  destruct w as [lw mw hw rw ew], w2 as [lw2 mw2 hw2 rw2 ew2].
  cbn -[statistics results_repr grid] in Hres, Hlog |- *. subst rw2 ew2.
  split; [exact Hconf|].
  unfold stdout in *. rewrite !omap_app. fold (stdout (Stdout <$>
    statistics (slice 20 1 <$> sorted (glob_dirs fs "dogImages/train"))
               (f1 :: tf) (f2 :: vf) (f3 :: sf))).
  rewrite stdout_lines, Hout, <- !app_assoc. reflexivity.
Qed.

Lemma notebook_returns_witness :
  ∃ w',
    notebook sample_shuffle sample_access keras_depth sample_training sample_repr sample_format_f
             sample_address (dataset 133 []) empty_world = (Ok (), w')
    ∧ configuration <$> w_results w' = grid solvers learning_rates.
Proof.
  edestruct (notebook_returns sample_shuffle sample_access keras_depth sample_training sample_repr
               sample_format_f sample_address (dataset 133 []) empty_world)
    as (w' & Hrun & Hconf & _).
  - vm_compute. reflexivity.
  - vm_compute. reflexivity.
  - vm_compute. reflexivity.
  - discriminate.
  - discriminate.
  - discriminate.
  - apply Forall_forall. reflexivity.
  - exact sample_training_returns.
  - exists w'. exact (conj Hrun Hconf).
Defined.

(** X21.  Nothing after cell 2 reads what was loaded from [dogImages/test]:
    the builders, [train], the sweep, and cell 6 with the last cell do the
    same, in every state, whatever the test files, targets and tensors
    are. *)
Theorem test_data_is_not_used
    (depth : nat) (training : FitCall → res HistoryDict)
    (float_repr float_format_f : float → string) (address : nat → N)
    (g : Globals) (files : list string) (targets : list (list nat)) (tensors : Array)
    (w : World) :
  let g' := with_test g files targets tensors in
  create_scratch_model depth g' w = create_scratch_model depth g w
  ∧ create_finetune_model depth g' w = create_finetune_model depth g w
  ∧ create_frozen_model depth g' w = create_frozen_model depth g w
  ∧ (∀ model solver lr,
       train training g' model solver lr w = train training g model solver lr w)
  ∧ (∀ solvers learning_rates,
       sweep depth training float_format_f g' solvers learning_rates w
       = sweep depth training float_format_f g solvers learning_rates w)
  ∧ (cell_6 depth training float_format_f g';; cell_7 float_repr address) w
    = (cell_6 depth training float_format_f g;; cell_7 float_repr address) w.
Proof. repeat split. Qed.
